(** * TileGrid: two-dimensional addressing over a chained LED strip

    A shallow embedding of [adafruit_led_animation/tilegrid.py]: the grid
    mapper [generate_grid] (with its two local functions [single_tile_coord]
    and [multi_tile]) and the [TileGrid] class built on top of it.

    Python integers are unbounded, so they are [Z]; [//] and [%] are floor
    division and the modulo whose sign follows the divisor, which is what
    [Z.div] and [Z.modulo] compute.  Python floats are IEEE doubles and are
    embedded as primitive floats.  Exceptions are an explicit [result]. *)

From Stdlib Require Import ZArith Floats Lia String.
From stdpp Require Import base list list_numbers pretty.

Local Open Scope Z_scope.

(** ** Exceptions *)

Module Py.

Inductive exn : Type :=
  | NotImplementedError
  | ValueError
  | IndexError
  | TypeError
  | UnboundLocalError
  | ZeroDivisionError.

Inductive result (A : Type) : Type :=
  | Ok (a : A)
  | Raise (e : exn).
Arguments Ok {A} a.
Arguments Raise {A} e.

Definition bind {A B} (r : result A) (k : A -> result B) : result B :=
  match r with
  | Ok a => k a
  | Raise e => Raise e
  end.

(** [for x in l: body], the body threading the loop's variables. *)
Fixpoint for_each {A St} (l : list A) (body : A -> St -> result St) (st : St)
  : result St :=
  match l with
  | [] => Ok st
  | a :: l' => bind (body a st) (for_each l' body)
  end.

(** [range(n)]: 0, 1, ..., n-1, and nothing when [n <= 0]. *)
Definition range (n : Z) : list Z := seqZ 0 n.

(** [a // b] and [a % b]. *)
Definition floordiv (a b : Z) : result Z :=
  if b =? 0 then Raise ZeroDivisionError else Ok (a / b).

Definition modulo (a b : Z) : result Z :=
  if b =? 0 then Raise ZeroDivisionError else Ok (a mod b).

(** [len(l)] as a Python integer. *)
Definition len {A} (l : list A) : Z := Z.of_nat (length l).

(** [l[:stop]]: a negative [stop] counts from the end, and the bounds are
    clamped to the sequence. *)
Definition slice_to {A} (stop : Z) (l : list A) : list A :=
  if stop <? 0 then take (Z.to_nat (len l + stop)) l
  else take (Z.to_nat stop) l.

(** [l[i]] on a list or tuple: a negative index counts from the end. *)
Definition getitem {A} (l : list A) (i : Z) : result A :=
  let j := if i <? 0 then i + len l else i in
  if (j <? 0) || (len l <=? j) then Raise IndexError
  else match l !! Z.to_nat j with
       | Some a => Ok a
       | None => Raise IndexError
       end.

(** The built-in [max(a, b)] and [min(a, b)] on floats: the first argument
    is kept unless the second is strictly better. *)
Definition max (a b : float) : float := if PrimFloat.ltb a b then b else a.
Definition min (a b : float) : float := if PrimFloat.ltb b a then b else a.

(** [sep.join(l)]. *)
Fixpoint join (sep : string) (l : list string) : string :=
  match l with
  | [] => EmptyString
  | a :: l' =>
      match l' with
      | [] => a
      | _ :: _ => String.append a (String.append sep (join sep l'))
      end
  end.

(** [[f(x) for x in l]], where [f] may raise. *)
Fixpoint list_comp {A B} (f : A -> result B) (l : list A) : result (list B) :=
  match l with
  | [] => Ok []
  | a :: l' =>
      bind (f a) (fun b => bind (list_comp f l') (fun bs => Ok (b :: bs)))
  end.

End Py.

Import Py.

Notation "'let*' x ':=' c1 'in' c2" := (bind c1 (fun x => c2))
  (at level 10, x name, c1 at level 100, c2 at level 200).

(** ** The grid mapper *)

Section generate_grid.

Variables width height tile_num : Z.

(** The loop variables of [single_tile_coord]: [single_tile], and [temp],
    which is unbound until the first group starts. *)
Definition tile_state : Type := list (list Z) * option (list Z).

Definition single_tile_body (i : Z) (st : tile_state) : result tile_state :=
  let '(single_tile, temp) := st in
  let* group_index := floordiv i height in
  let ascending := (group_index mod 2) =? 0 in
  let* number_within_group := modulo i height in
  let number :=
    if ascending then group_index * height + number_within_group
    else (group_index + 1) * height - 1 - number_within_group in
  let temp := if number_within_group =? 0 then Some [] else temp in
  match temp with
  | None => Raise UnboundLocalError
  | Some t =>
      let t := t ++ [number] in
      let single_tile :=
        if number_within_group =? height - 1 then single_tile ++ [t]
        else single_tile in
      Ok (single_tile, Some t)
  end.

Definition single_tile_coord : result (list (list Z)) :=
  let* st := for_each (range (width * height)) single_tile_body ([], None) in
  Ok (fst st).

(** One pass of the inner loop of [multi_tile]; the loop variable [n] is
    not used by the body. *)
Definition multi_tile_pass (factor : Z) (tup : list Z)
    (st : list Z * list (list Z)) (n : Z) : list Z * list (list Z) :=
  let '(modified_tuple, multi_temp) := st in
  let modified_tuple :=
    modified_tuple
      ++ ((fun num => num + factor * (width * height)) <$> slice_to height tup) in
  (modified_tuple, multi_temp ++ [modified_tuple]).

Definition multi_tile (original_matrix : list (list Z)) : list (list Z) :=
  let factor := tile_num - 1 in
  if factor =? 0 then original_matrix
  else
    foldl (fun multi_temp tup =>
             let modified_tuple := slice_to height tup in
             snd (foldl (multi_tile_pass factor tup)
                        (modified_tuple, multi_temp) (range factor)))
          [] original_matrix.

Definition generate_grid : result (list (list Z)) :=
  let* default_tile := single_tile_coord in
  Ok (multi_tile default_tile).

End generate_grid.

(** ** The coordinate mappers for reversed axes

    Both take a mapper, a function of [x] and [y], and return a mapper; the
    module defines them and does not call them. *)

Definition reverse_x_mapper {A} (width : Z) (mapper : Z -> Z -> A)
  : Z -> Z -> A :=
  let max_x := width - 1 in
  fun x y => mapper (max_x - x) y.

Definition reverse_y_mapper {A} (height : Z) (mapper : Z -> Z -> A)
  : Z -> Z -> A :=
  let max_y := height - 1 in
  fun x y => mapper x (max_y - y).

(** ** The collaborators

    The strip is an object implementing the NeoPixel or DotStar protocol;
    [TileGrid] only reads and writes its [brightness] and [auto_write]
    attributes and calls [show()].  The grid and every sub-map hold a
    reference to the same strip, so its state is a single store that the
    methods thread. *)

Class PixelStrip (S : Type) : Type := {
  strip_brightness : S -> float;
  strip_set_brightness : float -> S -> S;
  strip_auto_write : S -> bool;
  strip_set_auto_write : bool -> S -> S;
  strip_show : S -> S;
}.

(** Modelled from the spec: [PixelMap] of [helper.py], the
    coordinate-addressable sub-map, which is constructed from the strip and
    an index tuple sequence.  The strip is the shared store, so the object
    keeps the tuple and the [individual_pixels] flag. *)
Record PixelMap : Type := {
  pixel_ranges : list Z;
  individual_pixels : bool;
}.

(** What may stand between the brackets of [grid[...]]. *)
Inductive index : Type :=
  | IdxInt (i : Z)
  | IdxSlice (start stop step : option Z)
  | IdxTuple (i0 i1 : Z)
  | IdxStr (s : string).

(** ** The class [TileGrid] *)

Module TileGrid.

Record t : Type := {
  _x : list PixelMap;
  height : Z;
  width : Z;
  tile_num : Z;
  n : Z;
}.

(** The arguments [orientation], [alternating], [reverse_x], [reverse_y],
    [top] and [bottom] are accepted and never read. *)
Definition __init__ (width height tile_num : Z) : result t :=
  let _x := [] in
  let* _x :=
    if tile_num >? 1 then
      let* mapper := generate_grid width height tile_num in
      Ok (foldl (fun _x m =>
                   _x ++ [{| pixel_ranges := m; individual_pixels := true |}])
                _x mapper)
    else Ok _x in
  Ok {| _x := _x; height := height; width := width; tile_num := tile_num;
        n := len _x |}.

Definition __len__ (self : t) : Z := n self.

Section methods.

Context {S C : Type} `{PixelStrip S}.

(** [PixelMap.__setitem__] of [helper.py], which is not part of this
    module: the write of a colour through one sub-map. *)
Variable PixelMap_setitem : PixelMap -> Z -> C -> S -> result S.

Definition show (self : t) (s : S) : S := strip_show s.

Definition __setitem__ (self : t) (index : index) (val : C) (s : S)
  : result S :=
  match index with
  | IdxSlice _ _ _ => Raise NotImplementedError
  | IdxTuple i0 i1 =>
      let* tile := getitem (_x self) i0 in
      let* s := PixelMap_setitem tile i1 val s in
      Ok (if strip_auto_write s then show self s else s)
  | _ => Raise ValueError
  end.

Definition __getitem__ (self : t) (index : index) : result PixelMap :=
  match index with
  | IdxSlice _ _ _ => Raise NotImplementedError
  | IdxInt index =>
      let index := if index <? 0 then index + __len__ self else index in
      if (index >=? n self) || (index <? 0) then Raise IndexError
      else getitem (_x self) index
  | _ => Raise TypeError
  end.

Definition brightness (self : t) (s : S) : float := strip_brightness s.

Definition set_brightness (self : t) (brightness : float) (s : S) : S :=
  strip_set_brightness (Py.min (Py.max brightness 0%float) 1%float) s.

Definition auto_write (self : t) (s : S) : bool := strip_auto_write s.

Definition set_auto_write (self : t) (value : bool) (s : S) : S :=
  strip_set_auto_write value s.

(** [PixelMap.fill] and the [str()] of a [PixelMap], of [helper.py]; the
    string form of a sub-map reads the strip and may raise. *)
Variable PixelMap_fill : PixelMap -> C -> S -> result S.
Variable PixelMap_str : PixelMap -> S -> result string.

Definition fill (self : t) (color : C) (s : S) : result S :=
  for_each (_x self) (fun strip s => PixelMap_fill strip color s) s.

Definition __repr__ (self : t) (s : S) : result string :=
  let* parts :=
    list_comp (fun x =>
                 let* m := __getitem__ self (IdxInt x) in
                 PixelMap_str m s)
              (range (n self)) in
  Ok (String.append "[" (String.append (join ", " parts) "]")).

End methods.

End TileGrid.

(** ** A strip that is an in-memory buffer

    Colours are packed integers; [shown] records every frame flushed by
    [show()]. *)

Record BufferStrip : Type := {
  buf : list Z;
  buf_brightness : float;
  buf_auto_write : bool;
  shown : list (list Z);
}.

#[export] Instance BufferStrip_PixelStrip : PixelStrip BufferStrip := {
  strip_brightness := buf_brightness;
  strip_set_brightness v s :=
    {| buf := buf s; buf_brightness := v; buf_auto_write := buf_auto_write s;
       shown := shown s |};
  strip_auto_write := buf_auto_write;
  strip_set_auto_write v s :=
    {| buf := buf s; buf_brightness := buf_brightness s; buf_auto_write := v;
       shown := shown s |};
  strip_show s :=
    {| buf := buf s; buf_brightness := buf_brightness s;
       buf_auto_write := buf_auto_write s; shown := shown s ++ [buf s] |};
}.

(** Modelled from the spec: the write through a sub-map built with
    "individual pixel" semantics, where each logical coordinate resolves to
    exactly one physical strip index; when [auto_write] is set the write is
    flushed at once, by the sub-map itself. *)
Definition BufferMap_setitem (m : PixelMap) (i : Z) (val : Z) (s : BufferStrip)
  : result BufferStrip :=
  let* k := getitem (pixel_ranges m) i in
  let* _ := getitem (buf s) k in
  let s :=
    {| buf := <[Z.to_nat (if k <? 0 then k + len (buf s) else k) := val]> (buf s);
       buf_brightness := buf_brightness s;
       buf_auto_write := buf_auto_write s; shown := shown s |} in
  Ok (if strip_auto_write s then strip_show s else s).

(** A stand-in for the string form of a sub-map, which [helper.py] defines:
    it reads every pixel the sub-map covers, so it raises [IndexError] on a
    strip that is shorter than one of its indices. *)
Definition BufferMap_str (m : PixelMap) (s : BufferStrip) : result string :=
  let* pixels := list_comp (getitem (buf s)) (pixel_ranges m) in
  Ok (String.append "[" (String.append (join ", " (pretty <$> pixels)) "]")).

Definition blank (auto : bool) : BufferStrip :=
  {| buf := replicate 16 0; buf_brightness := 1%float; buf_auto_write := auto;
     shown := [] |}.

Definition grid_4_2_2 : TileGrid.t :=
  {| TileGrid._x :=
       [ {| pixel_ranges := [0; 1; 8; 9]; individual_pixels := true |};
         {| pixel_ranges := [3; 2; 11; 10]; individual_pixels := true |};
         {| pixel_ranges := [4; 5; 12; 13]; individual_pixels := true |};
         {| pixel_ranges := [7; 6; 15; 14]; individual_pixels := true |} ];
     TileGrid.height := 2; TileGrid.width := 4; TileGrid.tile_num := 2;
     TileGrid.n := 4 |}.

(** ** The mapping in closed form

    What the spec says the mapper computes, to be compared with the loops
    above. *)

(** The physical index of linear position [i] in a tile whose groups hold
    [height] pixels. *)
Definition physical_index (height i : Z) : Z :=
  let group_index := i / height in
  let position_in_group := i mod height in
  if Z.even group_index then group_index * height + position_in_group
  else (group_index + 1) * height - 1 - position_in_group.

(** Group [x] of the single tile, and the whole single-tile map. *)
Definition column (height x : Z) : list Z :=
  (fun y => physical_index height (x * height + y)) <$> seqZ 0 height.

Definition serpentine (width height : Z) : list (list Z) :=
  column height <$> seqZ 0 width.

(** The value of [temp] after [k] iterations of the loop of
    [single_tile_coord]: the group being filled. *)
Definition partial (height k : Z) : option (list Z) :=
  if k =? 0 then None
  else Some (physical_index height
               <$> seqZ ((k - 1) / height * height)
                        (k - (k - 1) / height * height)).

(** A replicated block of group [x], the tuple after [k] replication passes,
    and everything [multi_tile] appends when [tile_num] is not 1. *)
Definition offset_block (width height tile_num x : Z) : list Z :=
  (fun num => num + (tile_num - 1) * (width * height)) <$> column height x.

Definition replicated (width height tile_num x : Z) (k : nat) : list Z :=
  column height x ++ mjoin (replicate k (offset_block width height tile_num x)).

Definition multi_grid (width height tile_num : Z) : list (list Z) :=
  seqZ 0 width ≫= (fun x =>
    replicated width height tile_num x <$> seq 1 (Z.to_nat (tile_num - 1))).

(** Block [j] of a tuple cut into blocks of [h] entries: block 0 is the
    group of tile 0, the blocks after it are the replicated ones. *)
Definition block (h j : nat) (m : list Z) : list Z :=
  take h (drop (j * h) m).

(** The sub-map a two-tile grid builds for group [col]. *)
Definition two_tile_view (width height : Z) (col : list Z) : PixelMap :=
  {| pixel_ranges := col ++ ((fun num => num + width * height) <$> col);
     individual_pixels := true |}.

(** * Properties *)

(** ** Running the mapper on small grids *)

Example generate_grid_2_3_1 :
  generate_grid 2 3 1 = Ok [[0; 1; 2]; [5; 4; 3]].
Proof. reflexivity. Qed.

Example generate_grid_4_2_2 :
  generate_grid 4 2 2
  = Ok [[0; 1; 8; 9]; [3; 2; 11; 10]; [4; 5; 12; 13]; [7; 6; 15; 14]].
Proof. reflexivity. Qed.

Example generate_grid_1_2_3 :
  generate_grid 1 2 3 = Ok [[0; 1; 4; 5]; [0; 1; 4; 5; 4; 5]].
Proof. reflexivity. Qed.

Example init_4_2_2 : TileGrid.__init__ 4 2 2 = Ok grid_4_2_2.
Proof. reflexivity. Qed.

(** ** Loops *)

Lemma for_each_app {A St} (l1 l2 : list A) (body : A -> St -> result St) st :
  for_each (l1 ++ l2) body st = bind (for_each l1 body st) (for_each l2 body).
Proof.
  revert st. induction l1 as [|a l1 IH]; intros st; simpl; [done|].
  destruct (body a st); simpl; auto.
Qed.

Lemma for_each_one {A St} (a : A) (body : A -> St -> result St) st :
  for_each [a] body st = body a st.
Proof. cbn [for_each]. destruct (body a st); reflexivity. Qed.

Lemma even_mod2 z : (z mod 2 =? 0) = Z.even z.
Proof.
  rewrite Zmod_even. destruct (Z.even z); reflexivity.
Qed.

Lemma single_tile_body_eq h i single_tile temp :
  h <> 0 ->
  single_tile_body h i (single_tile, temp) =
  match (if i mod h =? 0 then Some [] else temp) with
  | None => Raise UnboundLocalError
  | Some t =>
      Ok (if i mod h =? h - 1 then single_tile ++ [t ++ [physical_index h i]]
          else single_tile, Some (t ++ [physical_index h i]))
  end.
Proof.
  intros Hh. unfold single_tile_body, floordiv, modulo, physical_index.
  destruct (Z.eqb_spec h 0) as [?|_]; [done|]. simpl.
  rewrite even_mod2. reflexivity.
Qed.

Lemma column_seqZ h x : column h x = physical_index h <$> seqZ (x * h) h.
Proof.
  unfold column.
  replace (seqZ (x * h) h) with (Z.add (x * h) <$> seqZ 0 h)
    by (rewrite fmap_add_seqZ; f_equal; lia).
  rewrite <- list_fmap_compose. reflexivity.
Qed.

Lemma single_tile_loop h (k : nat) :
  0 < h ->
  for_each (seqZ 0 (Z.of_nat k)) (single_tile_body h) ([], None)
  = Ok (column h <$> seqZ 0 (Z.of_nat k / h), partial h (Z.of_nat k)).
Proof.
  intros Hh. induction k as [|k IH].
  - reflexivity.
  - rewrite seqZ_S, for_each_app, IH. cbn [bind]. rewrite for_each_one, Z.add_0_l.
    rewrite single_tile_body_eq by lia.
    set (i := Z.of_nat k) in *.
    assert (Hi : 0 <= i) by lia.
    replace (Z.of_nat (S k)) with (i + 1) by lia.
    clearbody i. clear IH k.
    pose proof (Z.div_mod i h ltac:(lia)) as Hdm.
    pose proof (Z.mod_pos_bound i h Hh) as Hmb.
    set (g := i / h) in *. set (r := i mod h) in *.
    assert (Hg : 0 <= g) by (apply Z.div_pos; lia).
    assert (Hpart : (if r =? 0 then Some [] else partial h i)
                    = Some (physical_index h <$> seqZ (g * h) r)).
    { destruct (Z.eqb_spec r 0) as [->|Hr]; [reflexivity|].
      unfold partial. destruct (Z.eqb_spec i 0) as [->|_]; [subst r; done|].
      replace ((i - 1) / h) with g
        by (apply (Z.div_unique (i - 1) h g (r - 1)); lia).
      do 3 f_equal. lia. }
    assert (Hnext : partial h (i + 1)
                    = Some (physical_index h <$> seqZ (g * h) (r + 1))).
    { unfold partial. destruct (Z.eqb_spec (i + 1) 0) as [?|_]; [lia|].
      replace (i + 1 - 1) with i by lia. fold g. do 3 f_equal. lia. }
    rewrite Hpart, Hnext.
    assert (Hsnoc : (physical_index h <$> seqZ (g * h) r) ++ [physical_index h i]
                    = physical_index h <$> seqZ (g * h) (r + 1)).
    { rewrite seqZ_app, fmap_app by lia. f_equal.
      change (seqZ (g * h + r) 1) with [g * h + r]. cbn. do 2 f_equal. lia. }
    rewrite Hsnoc. f_equal. f_equal.
    destruct (Z.eqb_spec r (h - 1)) as [Hr|Hr].
    + replace ((i + 1) / h) with (g + 1)
        by (apply (Z.div_unique (i + 1) h (g + 1) 0); lia).
      rewrite (seqZ_app 0 g 1), fmap_app by lia. f_equal.
      change (seqZ (0 + g) 1) with [g]. cbn [fmap list_fmap].
      rewrite column_seqZ. do 3 f_equal. lia.
    + replace ((i + 1) / h) with g
        by (apply (Z.div_unique (i + 1) h g (r + 1)); lia).
      reflexivity.
Qed.

Lemma single_tile_coord_pos w h :
  0 <= w -> 0 < h -> single_tile_coord w h = Ok (serpentine w h).
Proof.
  intros Hw Hh. unfold single_tile_coord, range.
  rewrite <- (Z2Nat.id (w * h)) by nia.
  rewrite single_tile_loop by done. cbn [bind fst].
  rewrite Z2Nat.id by nia. rewrite Z.div_mul by lia. reflexivity.
Qed.

(** With a negative height no group is ever closed. *)
Lemma single_tile_loop_neg h l t :
  h < 0 ->
  exists t', for_each l (single_tile_body h) ([], Some t) = Ok ([], Some t').
Proof.
  intros Hh. revert t. induction l as [|i l IH]; intros t.
  - by exists t.
  - cbn [for_each]. rewrite single_tile_body_eq by lia.
    pose proof (Z.mod_neg_bound i h Hh).
    destruct (Z.eqb_spec (i mod h) (h - 1)) as [?|_]; [lia|].
    destruct (i mod h =? 0); cbn [bind]; apply IH.
Qed.

Lemma single_tile_coord_nonpos w h :
  w <= 0 \/ h <= 0 -> single_tile_coord w h = Ok [].
Proof.
  intros Hwh. unfold single_tile_coord, range.
  destruct (Z_le_gt_dec (w * h) 0) as [Hle|Hgt].
  - by rewrite seqZ_nil.
  - assert (Hh : h < 0).
    { destruct (Z_lt_ge_dec h 0) as [?|Hge]; [done|]. exfalso.
      destruct Hwh as [Hw|Hh0].
      - pose proof (Z.mul_nonpos_nonneg w h). lia.
      - replace h with 0 in Hgt by lia. lia. }
    rewrite seqZ_cons by lia. cbn [for_each].
    rewrite single_tile_body_eq by lia. rewrite Z.mod_0_l by lia.
    change (0 =? 0) with true. cbv iota.
    destruct (Z.eqb_spec 0 (h - 1)) as [?|_]; [lia|]. cbn [bind].
    match goal with
    | |- context [for_each ?l _ ([], Some ?t)] =>
        destruct (single_tile_loop_neg h l t Hh) as [t' ->]
    end.
    reflexivity.
Qed.

Lemma physical_index_at h x y :
  0 <= y < h ->
  physical_index h (x * h + y)
  = if Z.even x then x * h + y else (x + 1) * h - 1 - y.
Proof.
  intros Hy. unfold physical_index.
  replace ((x * h + y) / h) with x
    by (apply (Z.div_unique (x * h + y) h x y); lia).
  replace ((x * h + y) mod h) with y
    by (apply (Z.mod_unique (x * h + y) h x y); lia).
  reflexivity.
Qed.

Lemma length_column h x : length (column h x) = Z.to_nat h.
Proof. unfold column. by rewrite length_fmap, length_seqZ. Qed.

Lemma lookup_column h x (y : nat) :
  Z.of_nat y < h ->
  column h x !! y = Some (physical_index h (x * h + Z.of_nat y)).
Proof.
  intros Hy. unfold column.
  by rewrite list_lookup_fmap, lookup_seqZ_lt.
Qed.

Lemma elem_of_column h x v :
  v ∈ column h x <-> x * h <= v < x * h + h.
Proof.
  unfold column. rewrite list_elem_of_fmap. split.
  - intros (y & -> & Hy%elem_of_seqZ). rewrite physical_index_at by lia.
    destruct (Z.even x); lia.
  - intros Hv.
    exists (if Z.even x then v - x * h else (x + 1) * h - 1 - v).
    split.
    + rewrite physical_index_at by (destruct (Z.even x); lia).
      destruct (Z.even x); lia.
    + apply elem_of_seqZ. destruct (Z.even x); lia.
Qed.

Lemma NoDup_column h x : NoDup (column h x).
Proof.
  unfold column. apply NoDup_fmap_2_strong; [|apply NoDup_seqZ].
  intros y1 y2 Hy1%elem_of_seqZ Hy2%elem_of_seqZ.
  rewrite !physical_index_at by lia. destruct (Z.even x); lia.
Qed.

Lemma column_Permutation h x : column h x ≡ₚ seqZ (x * h) h.
Proof.
  apply NoDup_Permutation; [apply NoDup_column|apply NoDup_seqZ|].
  intros v. by rewrite elem_of_column, elem_of_seqZ.
Qed.

Lemma serpentine_Permutation (w : nat) h :
  0 <= h -> mjoin (serpentine (Z.of_nat w) h) ≡ₚ seqZ 0 (Z.of_nat w * h).
Proof.
  intros Hh. unfold serpentine. induction w as [|w IH].
  - reflexivity.
  - rewrite seqZ_S, fmap_app, join_app, IH. cbn [fmap list_fmap mjoin list_join].
    rewrite app_nil_r, column_Permutation.
    replace (Z.of_nat (S w) * h) with (Z.of_nat w * h + h) by lia.
    rewrite (seqZ_app 0) by lia. reflexivity.
Qed.

Lemma multi_tile_passes w h factor tup ns cur acc :
  let blk := (fun num => num + factor * (w * h)) <$> slice_to h tup in
  foldl (multi_tile_pass w h factor tup) (cur, acc) ns
  = (cur ++ mjoin (replicate (length ns) blk),
     acc ++ ((fun k => cur ++ mjoin (replicate k blk)) <$> seq 1 (length ns))).
Proof.
  intros blk. revert cur acc. induction ns as [|n ns IH]; intros cur acc.
  - cbn. by rewrite !app_nil_r.
  - cbn [foldl multi_tile_pass length]. fold blk. rewrite IH.
    cbn [replicate mjoin list_join seq fmap list_fmap].
    rewrite <- (fmap_S_seq 1), <- list_fmap_compose.
    rewrite <- !(assoc_L (++)), app_nil_r. f_equal. f_equal. cbn. f_equal.
    apply list_fmap_ext. intros _ k _. cbn. by rewrite <- (assoc_L (++)).
Qed.

Lemma multi_tile_eq w h t cols :
  t - 1 <> 0 ->
  multi_tile w h t cols
  = cols ≫= (fun tup =>
      (fun k => slice_to h tup
                ++ mjoin (replicate k ((fun num => num + (t - 1) * (w * h))
                                         <$> slice_to h tup)))
      <$> seq 1 (Z.to_nat (t - 1))).
Proof.
  intros Ht. unfold multi_tile.
  destruct (Z.eqb_spec (t - 1) 0) as [?|_]; [done|].
  rewrite <- (app_nil_l (cols ≫= _)). generalize (@nil (list Z)).
  induction cols as [|tup cols IH]; intros acc.
  - cbn. by rewrite app_nil_r.
  - cbn [foldl]. rewrite IH, multi_tile_passes. cbn [snd].
    unfold range. rewrite length_seqZ, bind_cons, (assoc_L (++)). reflexivity.
Qed.

Lemma slice_to_column h x : 0 <= h -> slice_to h (column h x) = column h x.
Proof.
  intros Hh. unfold slice_to.
  destruct (Z.ltb_spec h 0) as [?|_]; [lia|].
  apply take_ge. by rewrite length_column.
Qed.

Lemma generate_grid_multi w h t :
  0 <= w -> 0 < h -> t - 1 <> 0 -> generate_grid w h t = Ok (multi_grid w h t).
Proof.
  intros Hw Hh Ht. unfold generate_grid.
  rewrite single_tile_coord_pos by done. cbn [bind].
  rewrite multi_tile_eq by done. unfold serpentine, multi_grid.
  rewrite list_fmap_bind. f_equal. apply list_bind_ext; [|done].
  intros x. cbn. rewrite slice_to_column by lia. reflexivity.
Qed.

Lemma generate_grid_single w h :
  0 <= w -> 0 < h -> generate_grid w h 1 = Ok (serpentine w h).
Proof.
  intros Hw Hh. unfold generate_grid.
  by rewrite single_tile_coord_pos.
Qed.

Lemma generate_grid_nonpos w h t :
  w <= 0 \/ h <= 0 -> generate_grid w h t = Ok [].
Proof.
  intros Hwh. unfold generate_grid.
  rewrite single_tile_coord_nonpos by done. cbn [bind]. unfold multi_tile.
  by destruct (t - 1 =? 0).
Qed.

Lemma lookup_join_replicate {A} (blk : list A) (k q : nat) :
  (q < k * length blk)%nat ->
  mjoin (replicate k blk) !! q = blk !! (q mod length blk)%nat.
Proof.
  revert q. induction k as [|k IH]; intros q Hq; [lia|].
  change (mjoin (replicate (S k) blk)) with (blk ++ mjoin (replicate k blk)).
  destruct (Nat.lt_ge_cases q (length blk)) as [Hlt|Hge].
  - rewrite lookup_app_l by done. by rewrite Nat.mod_small.
  - rewrite lookup_app_r by done. rewrite IH by lia.
    f_equal. replace q with ((q - length blk) + 1 * length blk)%nat at 2 by lia.
    by rewrite Nat.Div0.mod_add.
Qed.

Lemma length_join_replicate {A} (blk : list A) (k : nat) :
  length (mjoin (replicate k blk)) = (k * length blk)%nat.
Proof.
  induction k as [|k IH]; [done|].
  change (mjoin (replicate (S k) blk)) with (blk ++ mjoin (replicate k blk)).
  rewrite length_app, IH. lia.
Qed.

Lemma length_offset_block w h t x :
  length (offset_block w h t x) = Z.to_nat h.
Proof. unfold offset_block. by rewrite length_fmap, length_column. Qed.

Lemma length_replicated w h t x k :
  length (replicated w h t x k) = ((k + 1) * Z.to_nat h)%nat.
Proof.
  unfold replicated.
  rewrite length_app, length_join_replicate, length_column, length_offset_block.
  lia.
Qed.

Lemma lookup_replicated_base w h t x k (p : nat) :
  (p < Z.to_nat h)%nat ->
  replicated w h t x k !! p = column h x !! p.
Proof.
  intros Hp. unfold replicated. apply lookup_app_l. by rewrite length_column.
Qed.

Lemma lookup_replicated_block w h t x k (p : nat) :
  (Z.to_nat h <= p < (k + 1) * Z.to_nat h)%nat ->
  replicated w h t x k !! p
  = (fun num => num + (t - 1) * (w * h)) <$> column h x !! (p mod Z.to_nat h)%nat.
Proof.
  intros Hp. unfold replicated.
  rewrite lookup_app_r by (rewrite length_column; lia).
  rewrite length_column, lookup_join_replicate
    by (rewrite length_offset_block; lia).
  rewrite length_offset_block. unfold offset_block. rewrite list_lookup_fmap.
  do 2 f_equal.
  replace p with ((p - Z.to_nat h) + 1 * Z.to_nat h)%nat at 2 by lia.
  by rewrite Nat.Div0.mod_add.
Qed.

Lemma elem_of_multi_grid w h t m :
  m ∈ multi_grid w h t <->
  exists x (k : nat),
    0 <= x < w /\ (1 <= k <= Z.to_nat (t - 1))%nat /\ m = replicated w h t x k.
Proof.
  unfold multi_grid. rewrite list_elem_of_bind. split.
  - intros (x & (k & -> & Hk%elem_of_seq)%list_elem_of_fmap & Hx%elem_of_seqZ).
    exists x, k. repeat split; lia.
  - intros (x & k & Hx & Hk & ->). exists x. split.
    + apply list_elem_of_fmap. exists k. split; [done|]. apply elem_of_seq. lia.
    + apply elem_of_seqZ. lia.
Qed.

Lemma lookup_serpentine w h (x : nat) :
  Z.of_nat x < w -> serpentine w h !! x = Some (column h (Z.of_nat x)).
Proof.
  intros Hx. unfold serpentine.
  by rewrite list_lookup_fmap, lookup_seqZ_lt.
Qed.

Lemma length_serpentine w h : length (serpentine w h) = Z.to_nat w.
Proof. unfold serpentine. by rewrite length_fmap, length_seqZ. Qed.

Lemma column_direction h x :
  0 <= h ->
  column h x
  = if Z.even x then seqZ (x * h) h else reverse (seqZ (x * h) h).
Proof.
  intros Hh. apply list_eq. intros i.
  destruct (Nat.lt_ge_cases i (Z.to_nat h)) as [Hi|Hi].
  - rewrite lookup_column, physical_index_at by lia.
    destruct (Z.even x).
    + by rewrite lookup_seqZ_lt by lia.
    + rewrite reverse_lookup by (rewrite length_seqZ; lia).
      rewrite length_seqZ, lookup_seqZ_lt by lia. f_equal. lia.
  - rewrite lookup_ge_None_2 by (rewrite length_column; lia).
    symmetry. apply lookup_ge_None_2.
    destruct (Z.even x); rewrite ?length_reverse, length_seqZ; lia.
Qed.

(** ** The single tile *)

(** C1: for a tile of at least one group of at least one pixel, the
    single-tile map is [width] groups of [height] entries; the entry for
    linear position [i] sits in group [i // height] at place [i % height] and
    is [group * height + place] in an even group and
    [(group + 1) * height - 1 - place] in an odd one, so that entry [x][y] is
    the physical index of [x * height + y]; a 2 by 3 tile gives (0, 1, 2)
    and (5, 4, 3). *)
Theorem single_tile_formula (width height : Z) :
  1 <= width -> 1 <= height ->
  exists single_tile,
    single_tile_coord width height = Ok single_tile
    /\ length single_tile = Z.to_nat width
    /\ (forall i, 0 <= i < width * height ->
          let group_index := i / height in
          let position_in_group := i mod height in
          exists group,
            single_tile !! Z.to_nat group_index = Some group
            /\ length group = Z.to_nat height
            /\ group !! Z.to_nat position_in_group
               = Some (if Z.even group_index
                       then group_index * height + position_in_group
                       else (group_index + 1) * height - 1 - position_in_group))
    /\ (forall x y, 0 <= x < width -> 0 <= y < height ->
          exists group,
            single_tile !! Z.to_nat x = Some group
            /\ group !! Z.to_nat y
               = Some (physical_index height (x * height + y)))
    /\ single_tile_coord 2 3 = Ok [[0; 1; 2]; [5; 4; 3]].
Proof.
  intros Hw Hh. exists (serpentine width height).
  split; [apply single_tile_coord_pos; lia|].
  split; [apply length_serpentine|].
  assert (Hxy : forall x y, 0 <= x < width -> 0 <= y < height ->
            serpentine width height !! Z.to_nat x = Some (column height x)
            /\ column height x !! Z.to_nat y
               = Some (physical_index height (x * height + y))).
  { intros x y Hx Hy. split.
    - rewrite lookup_serpentine by lia. by rewrite Z2Nat.id by lia.
    - rewrite lookup_column by lia. by rewrite Z2Nat.id by lia. }
  split; [|split; [|reflexivity]].
  - intros i Hi group_index position_in_group.
    pose proof (Z.div_mod i height ltac:(lia)) as Hdm.
    pose proof (Z.mod_pos_bound i height ltac:(lia)) as Hmb.
    assert (Hg : 0 <= group_index < width).
    { subst group_index. split; [apply Z.div_pos; lia|].
      apply Z.div_lt_upper_bound; lia. }
    destruct (Hxy group_index position_in_group Hg Hmb) as [Hrow Hcol].
    exists (column height group_index).
    split; [done|]. split; [apply length_column|].
    replace (group_index * height + position_in_group) with i in Hcol
      by (subst group_index position_in_group; lia).
    exact Hcol.
  - intros x y Hx Hy. destruct (Hxy x y Hx Hy) as [Hrow Hcol].
    by exists (column height x).
Qed.

Lemma single_tile_formula_witness :
  exists single_tile,
    single_tile_coord 4 2 = Ok single_tile /\ length single_tile = 4%nat.
Proof.
  destruct (single_tile_formula 4 2 ltac:(lia) ltac:(lia))
    as (single_tile & Hrun & Hlen & _).
  exists single_tile. split; [exact Hrun|exact Hlen].
Defined.

(** C2: for a tile of at least one group of at least one pixel, the groups
    of the single-tile map, one after the other, are a permutation of
    [0, width * height): [width * height] integers, no value twice, and
    exactly the values of that range. *)
Theorem single_tile_permutation (width height : Z) :
  1 <= width -> 1 <= height ->
  exists single_tile,
    single_tile_coord width height = Ok single_tile
    /\ mjoin single_tile ≡ₚ seqZ 0 (width * height)
    /\ length (mjoin single_tile) = Z.to_nat (width * height)
    /\ NoDup (mjoin single_tile)
    /\ (forall v, v ∈ mjoin single_tile <-> 0 <= v < width * height).
Proof.
  intros Hw Hh. exists (serpentine width height).
  split; [apply single_tile_coord_pos; lia|].
  assert (Hperm : mjoin (serpentine width height) ≡ₚ seqZ 0 (width * height)).
  { rewrite <- (Z2Nat.id width) by lia. apply serpentine_Permutation. lia. }
  split; [done|]. split; [|split].
  - by rewrite Hperm, length_seqZ.
  - rewrite Hperm. apply NoDup_seqZ.
  - intros v. rewrite Hperm, elem_of_seqZ. lia.
Qed.

Lemma single_tile_permutation_witness :
  exists single_tile,
    single_tile_coord 2 3 = Ok single_tile
    /\ mjoin single_tile ≡ₚ seqZ 0 (2 * 3).
Proof.
  destruct (single_tile_permutation 2 3 ltac:(lia) ltac:(lia))
    as (single_tile & Hrun & Hperm & _).
  exists single_tile. split; [exact Hrun|exact Hperm].
Defined.

(** ** Replication across tiles *)

Lemma column_range w h x v :
  0 <= x < w -> 0 < h -> v ∈ column h x -> 0 <= v < w * h.
Proof.
  intros Hx Hh Hv%elem_of_column.
  assert ((x + 1) * h <= w * h) by (apply Z.mul_le_mono_nonneg_r; lia).
  assert (0 <= x * h) by (apply Z.mul_nonneg_nonneg; lia).
  lia.
Qed.

Lemma block_base w h t x k :
  block (Z.to_nat h) 0 (replicated w h t x k) = column h x.
Proof.
  unfold block, replicated. cbn [Nat.mul drop].
  apply take_app_length'. by rewrite length_column.
Qed.

Lemma block_replicated w h t x k (j : nat) :
  (1 <= j)%nat -> ((j + 1) * Z.to_nat h <= (k + 1) * Z.to_nat h)%nat ->
  block (Z.to_nat h) j (replicated w h t x k)
  = (fun num => num + (t - 1) * (w * h)) <$> column h x.
Proof.
  intros Hj Hlen. apply list_eq. intros i. unfold block.
  destruct (Nat.lt_ge_cases i (Z.to_nat h)) as [Hi|Hi].
  - rewrite lookup_take_lt, lookup_drop by done.
    rewrite lookup_replicated_block by nia.
    rewrite list_lookup_fmap. do 2 f_equal.
    rewrite Nat.add_comm, Nat.Div0.mod_add. by apply Nat.mod_small.
  - rewrite lookup_take_ge by done. symmetry. apply lookup_ge_None_2.
    by rewrite length_fmap, length_column.
Qed.

(** C3, as the code has it: with more than one tile, every tuple of the
    grid is a group of the single tile followed by between 1 and
    [tile_num - 1] replicated blocks, and every replicated block is that
    group with the one constant [(tile_num - 1) * width * height] added,
    whichever pass appended it.  So with more than two tiles some tuple
    carries several replicated blocks and any two of them agree entry by
    entry; and every replicated block, not the final one alone, differs from
    the block of tile 0: the replicated entries all lie in the index range of
    the last tile, which is apart from the range of tile 0. *)
Theorem multi_tile_constant_offset (width height tile_num : Z) :
  1 <= width -> 1 <= height -> 1 < tile_num ->
  let offset := (tile_num - 1) * (width * height) in
  let h := Z.to_nat height in
  exists grid,
    generate_grid width height tile_num = Ok grid
    /\ (forall m, m ∈ grid <->
          exists x (k : nat),
            0 <= x < width /\ (1 <= k <= Z.to_nat (tile_num - 1))%nat
            /\ m = column height x
                   ++ mjoin (replicate k ((fun num => num + offset)
                                            <$> column height x)))
    /\ (forall m (p : nat) v,
          m ∈ grid -> (h <= p)%nat -> m !! p = Some v ->
          exists base, m !! (p mod h)%nat = Some base /\ v = base + offset)
    /\ (2 < tile_num ->
          (exists m, m ∈ grid /\ (3 * h <= length m)%nat)
          /\ (forall m (p q : nat),
                m ∈ grid ->
                (h <= p < length m)%nat -> (h <= q < length m)%nat ->
                (p mod h = q mod h)%nat ->
                m !! p = m !! q))
    /\ width * height <= offset
    /\ (forall m (p : nat) v,
          m ∈ grid -> m !! p = Some v ->
          if (p <? h)%nat then 0 <= v < width * height
          else offset <= v < offset + width * height)
    /\ (forall m (j : nat),
          m ∈ grid -> (1 <= j)%nat -> ((j + 1) * h <= length m)%nat ->
          block h j m = (fun num => num + offset) <$> block h 0 m
          /\ block h j m <> block h 0 m).
Proof.
  intros Hw Hh Ht offset h. exists (multi_grid width height tile_num).
  assert (Hpos : (0 < h)%nat) by (subst h; lia).
  assert (Hoff : width * height <= offset).
  { subst offset.
    assert (0 <= width * height) by (apply Z.mul_nonneg_nonneg; lia).
    rewrite <- (Z.mul_1_l (width * height)) at 1.
    apply Z.mul_le_mono_nonneg_r; lia. }
  split; [apply generate_grid_multi; lia|].
  split; [intros m; apply elem_of_multi_grid|].
  assert (Hblock : forall x k (p : nat),
            (h <= p < length (replicated width height tile_num x k))%nat ->
            replicated width height tile_num x k !! p
            = (fun num => num + offset) <$> column height x !! (p mod h)%nat).
  { intros x k p Hp. rewrite length_replicated in Hp.
    by apply lookup_replicated_block. }
  split; [|split; [|split; [exact Hoff|split]]].
  - intros m p v (x & k & Hx & Hk & ->)%elem_of_multi_grid Hp Hlook.
    pose proof (lookup_lt_Some _ _ _ Hlook) as Hlt.
    rewrite Hblock in Hlook by lia.
    destruct (column height x !! (p mod h)%nat) as [base|] eqn:Hbase; [|done].
    exists base. split; [|by inversion Hlook].
    rewrite lookup_replicated_base; [done|].
    apply Nat.mod_upper_bound. lia.
  - intros Ht2. split.
    + exists (replicated width height tile_num 0 2). split.
      * apply elem_of_multi_grid. exists 0, 2%nat. repeat split; lia.
      * rewrite length_replicated. fold h. lia.
    + intros m p q (x & k & Hx & Hk & ->)%elem_of_multi_grid Hp Hq Hpq.
      rewrite !Hblock by lia. by rewrite Hpq.
  - intros m p v (x & k & Hx & Hk & ->)%elem_of_multi_grid Hlook.
    pose proof (lookup_lt_Some _ _ _ Hlook) as Hlt.
    destruct (Nat.ltb_spec p h) as [Hp|Hp].
    + rewrite lookup_replicated_base in Hlook by done.
      apply (column_range width height x); [lia|lia|].
      by eapply list_elem_of_lookup_2.
    + rewrite Hblock in Hlook by lia.
      destruct (column height x !! (p mod h)%nat) as [base|] eqn:Hbase; [|done].
      inversion Hlook; subst v.
      assert (0 <= base < width * height).
      { apply (column_range width height x); [lia|lia|].
        by eapply list_elem_of_lookup_2. }
      lia.
  - intros m j (x & k & Hx & Hk & ->)%elem_of_multi_grid Hj Hlen.
    rewrite length_replicated in Hlen. subst h.
    rewrite block_base, block_replicated by done.
    split; [reflexivity|]. intros Heq.
    destruct (lookup_lt_is_Some_2 (column height x) 0%nat) as [a Ha];
      [rewrite length_column; lia|].
    assert (Hsame : ((fun num => num + (tile_num - 1) * (width * height))
                       <$> column height x) !! 0%nat
                    = column height x !! 0%nat) by (by rewrite Heq).
    rewrite list_lookup_fmap, Ha in Hsame. cbn in Hsame.
    inversion Hsame. assert (0 < width * height) by nia. lia.
Qed.

Lemma multi_tile_constant_offset_witness :
  exists grid,
    generate_grid 1 2 3 = Ok grid
    /\ exists m, m ∈ grid /\ (3 * Z.to_nat 2 <= length m)%nat.
Proof.
  destruct (multi_tile_constant_offset 1 2 3 ltac:(lia) ltac:(lia) ltac:(lia))
    as (grid & Hrun & _ & _ & Hdup & _ & _ & _).
  exists grid. split; [exact Hrun|]. exact (proj1 (Hdup ltac:(lia))).
Defined.

(** C3, as the spec has it, fails in its last clause for a 1 by 2 tile
    chained three times: the tuple (0, 1, 4, 5, 4, 5) carries two replicated
    blocks, and the first of them, which is not the final one, is (4, 5) and
    differs from the block (0, 1) of tile 0 as the final one does. *)
Lemma final_block_is_not_the_only_distinct :
  exists grid m,
    generate_grid 1 2 3 = Ok grid
    /\ m ∈ grid
    /\ m = [0; 1; 4; 5; 4; 5]
    /\ block 2 0 m = [0; 1]
    /\ block 2 1 m = [4; 5]
    /\ block 2 2 m = [4; 5]
    /\ block 2 1 m <> block 2 0 m
    /\ ~ (forall j : nat,
            (1 <= j <= 2)%nat -> block 2 j m <> block 2 0 m -> j = 2%nat).
Proof.
  exists [[0; 1; 4; 5]; [0; 1; 4; 5; 4; 5]], [0; 1; 4; 5; 4; 5].
  split; [reflexivity|].
  split; [apply list_elem_of_further, list_elem_of_here|].
  split; [reflexivity|]. split; [reflexivity|]. split; [reflexivity|].
  split; [reflexivity|]. split; [discriminate|].
  intros Honly. specialize (Honly 1%nat ltac:(lia)).
  assert (1%nat = 2%nat) as Habs by (apply Honly; discriminate).
  discriminate.
Qed.

(** ** Building the grid *)

Lemma foldl_snoc_fmap {A B} (f : A -> B) (l : list A) (acc : list B) :
  foldl (fun acc a => acc ++ [f a]) acc l = acc ++ (f <$> l).
Proof.
  revert acc. induction l as [|a l IH]; intros acc; cbn [foldl].
  - by rewrite app_nil_r.
  - rewrite IH. by rewrite <- (assoc_L (++)).
Qed.

Lemma bind_singleton_fmap {A B} (f : A -> B) (l : list A) :
  l ≫= (fun a => [f a]) = f <$> l.
Proof.
  induction l as [|a l IH]; [done|]. rewrite bind_cons, IH. done.
Qed.

Lemma multi_grid_two w h :
  multi_grid w h 2
  = (fun x => column h x ++ ((fun num => num + w * h) <$> column h x))
    <$> seqZ 0 w.
Proof.
  unfold multi_grid. change (seq 1 (Z.to_nat (2 - 1))) with [1%nat].
  rewrite <- bind_singleton_fmap. apply list_bind_ext; [|done].
  intros x. cbn [fmap list_fmap]. unfold replicated, offset_block.
  cbn [replicate mjoin list_join]. rewrite app_nil_r.
  do 2 f_equal. apply list_fmap_ext. intros _ num _. lia.
Qed.

Lemma init_multi width height tile_num mapper :
  1 < tile_num ->
  generate_grid width height tile_num = Ok mapper ->
  TileGrid.__init__ width height tile_num
  = Ok {| TileGrid._x :=
            (fun m => {| pixel_ranges := m; individual_pixels := true |})
            <$> mapper;
          TileGrid.height := height; TileGrid.width := width;
          TileGrid.tile_num := tile_num;
          TileGrid.n := Z.of_nat (length mapper) |}.
Proof.
  intros Ht Hgrid. unfold TileGrid.__init__.
  destruct (Z.gtb_spec tile_num 1) as [_|?]; [|lia].
  rewrite Hgrid. cbn [bind]. rewrite foldl_snoc_fmap, app_nil_l.
  unfold len. by rewrite length_fmap.
Qed.

Lemma init_single width height tile_num :
  tile_num <= 1 ->
  TileGrid.__init__ width height tile_num
  = Ok {| TileGrid._x := []; TileGrid.height := height;
          TileGrid.width := width; TileGrid.tile_num := tile_num;
          TileGrid.n := 0 |}.
Proof.
  intros Ht. unfold TileGrid.__init__.
  destruct (Z.gtb_spec tile_num 1) as [?|_]; [lia|]. reflexivity.
Qed.

(** The constructor leaves [n] equal to the number of sub-maps. *)
Lemma init_n width height tile_num self :
  TileGrid.__init__ width height tile_num = Ok self ->
  TileGrid.n self = len (TileGrid._x self).
Proof.
  unfold TileGrid.__init__. destruct (tile_num >? 1).
  - destruct (generate_grid width height tile_num) as [mapper|e]; cbn [bind].
    + intros [= <-]. reflexivity.
    + discriminate.
  - cbn [bind]. intros [= <-]. reflexivity.
Qed.

Lemma init_two width height :
  0 <= width -> 0 < height ->
  TileGrid.__init__ width height 2
  = Ok {| TileGrid._x :=
            two_tile_view width height <$> serpentine width height;
          TileGrid.height := height; TileGrid.width := width;
          TileGrid.tile_num := 2; TileGrid.n := width |}.
Proof.
  intros Hw Hh.
  rewrite (init_multi width height 2 (multi_grid width height 2))
    by (lia || apply generate_grid_multi; lia).
  rewrite multi_grid_two, length_fmap, length_seqZ, Z2Nat.id by lia.
  unfold serpentine. by rewrite <- !list_fmap_compose.
Qed.

Lemma getitem_in_range {A} (l : list A) (i : Z) :
  0 <= i < len l ->
  exists a, l !! Z.to_nat i = Some a /\ getitem l i = Ok a.
Proof.
  intros Hi. unfold getitem, len in *.
  destruct (Z.ltb_spec i 0) as [?|_]; [lia|].
  destruct (Z.ltb_spec i 0) as [?|_]; [lia|].
  destruct (Z.leb_spec (Z.of_nat (length l)) i) as [?|_]; [lia|]. cbn [orb].
  destruct (l !! Z.to_nat i) as [a|] eqn:Hl; [by exists a|].
  apply lookup_ge_None in Hl. lia.
Qed.

Lemma generate_grid_two width height :
  0 <= width -> 0 < height ->
  generate_grid width height 2
  = Ok (pixel_ranges ∘ two_tile_view width height <$> serpentine width height).
Proof.
  intros Hw Hh. rewrite generate_grid_multi by lia. f_equal.
  rewrite multi_grid_two. unfold serpentine.
  by rewrite <- list_fmap_compose.
Qed.

Lemma multi_grid_no_pass w h t : t <= 1 -> multi_grid w h t = [].
Proof.
  intros Ht. unfold multi_grid.
  replace (Z.to_nat (t - 1)) with 0%nat by lia. cbn [seq fmap list_fmap].
  induction (seqZ 0 w) as [|x l IH]; [done|]. by rewrite bind_cons, IH.
Qed.

Lemma getitem_view width height (x : Z) :
  0 <= x < width -> 0 < height ->
  forall self,
    TileGrid.__init__ width height 2 = Ok self ->
    TileGrid.__getitem__ self (IdxInt x)
    = Ok (two_tile_view width height (column height x)).
Proof.
  intros Hx Hh self. rewrite init_two by lia. intros [= <-].
  unfold TileGrid.__getitem__, TileGrid.__len__. cbn [TileGrid.n TileGrid._x].
  destruct (Z.ltb_spec x 0) as [?|_]; [lia|].
  destruct (Z.geb_spec x width) as [?|_]; [lia|].
  destruct (Z.ltb_spec x 0) as [?|_]; [lia|]. cbn [orb].
  destruct (getitem_in_range
              (two_tile_view width height <$> serpentine width height) x)
    as (view & Hview & ->).
  { unfold len. rewrite length_fmap, length_serpentine. lia. }
  rewrite list_lookup_fmap, lookup_serpentine, Z2Nat.id in Hview by lia.
  by inversion Hview.
Qed.

(** C4, as the code has it: a grid of two tiles of at least one group of at
    least one pixel owns [width] sub-maps, one per group and not one per
    tile; sub-map [x] lists group [x] of the single-tile map and then the
    same entries shifted by [width * height].  For a 4 by 2 tile the four
    sub-maps are (0, 1, 8, 9), (3, 2, 11, 10), (4, 5, 12, 13) and
    (7, 6, 15, 14). *)
Theorem tilegrid_two_tiles_views (width height : Z) :
  1 <= width -> 1 <= height ->
  exists self single_tile,
    TileGrid.__init__ width height 2 = Ok self
    /\ single_tile_coord width height = Ok single_tile
    /\ TileGrid.__len__ self = width
    /\ length (TileGrid._x self) = Z.to_nat width
    /\ (forall x, 0 <= x < width ->
          exists col,
            single_tile !! Z.to_nat x = Some col
            /\ TileGrid.__getitem__ self (IdxInt x)
               = Ok {| pixel_ranges :=
                         col ++ ((fun num => num + width * height) <$> col);
                       individual_pixels := true |})
    /\ TileGrid.__init__ 4 2 2 = Ok grid_4_2_2.
Proof.
  intros Hw Hh.
  eexists _, (serpentine width height).
  split; [apply init_two; lia|].
  split; [apply single_tile_coord_pos; lia|].
  split; [reflexivity|].
  split; [cbn [TileGrid._x]; by rewrite length_fmap, length_serpentine|].
  split; [|reflexivity].
  intros x Hx. exists (column height x). split.
  - rewrite lookup_serpentine by lia. by rewrite Z2Nat.id by lia.
  - apply (getitem_view width height x); [lia|lia|]. apply init_two; lia.
Qed.

Lemma tilegrid_two_tiles_views_witness :
  exists self, TileGrid.__init__ 4 2 2 = Ok self /\ TileGrid.__len__ self = 4.
Proof.
  destruct (tilegrid_two_tiles_views 4 2 ltac:(lia) ltac:(lia))
    as (self & single_tile & Hinit & _ & Hlen & _).
  exists self. split; [exact Hinit|exact Hlen].
Defined.

(** C4, as the spec has it, fails for a 4 by 2 tile chained twice: the grid
    owns four sub-maps and not two, and sub-map 0 is (0, 1, 8, 9) and not the
    traversal of [0, 8). *)
Lemma tilegrid_len_is_not_tile_num :
  exists self,
    TileGrid.__init__ 4 2 2 = Ok self
    /\ TileGrid.__len__ self = 4
    /\ TileGrid.__len__ self <> TileGrid.tile_num self
    /\ pixel_ranges <$> TileGrid._x self !! 0%nat = Some [0; 1; 8; 9].
Proof.
  exists grid_4_2_2. repeat split. discriminate.
Qed.

(** C5: for two tiles of at least one group of at least one pixel, the
    mapper returns [width] tuples, one per group; tuple [g] has
    [2 * height] entries.  The first [height] are the serpentine traversal of
    group [g]: entry [y] is [g * height + y] when [g] is even and
    [(g + 1) * height - 1 - y] when it is odd, which is group [g] of the
    single-tile map.  Each of the last [height] is the entry [height] places
    before it plus [width * height].  The grid built from the mapper has
    [width] sub-maps, one per tuple. *)
Theorem generate_grid_two_tiles_shape (width height : Z) :
  1 <= width -> 1 <= height ->
  let h := Z.to_nat height in
  exists mapper single_tile self,
    generate_grid width height 2 = Ok mapper
    /\ single_tile_coord width height = Ok single_tile
    /\ length mapper = Z.to_nat width
    /\ (forall (g : nat) tup,
          mapper !! g = Some tup ->
          length tup = (2 * h)%nat
          /\ single_tile !! g = Some (take h tup)
          /\ take h tup
             = (if Z.even (Z.of_nat g)
                then seqZ (Z.of_nat g * height) height
                else reverse (seqZ (Z.of_nat g * height) height))
          /\ (forall y : nat, (y < h)%nat ->
                tup !! y
                = Some (if Z.even (Z.of_nat g)
                        then Z.of_nat g * height + Z.of_nat y
                        else (Z.of_nat g + 1) * height - 1 - Z.of_nat y))
          /\ forall y : nat, (y < h)%nat ->
               exists a, tup !! y = Some a
                         /\ tup !! (h + y)%nat = Some (a + width * height))
    /\ generate_grid 4 2 2
       = Ok [[0; 1; 8; 9]; [3; 2; 11; 10]; [4; 5; 12; 13]; [7; 6; 15; 14]]
    /\ TileGrid.__init__ width height 2 = Ok self
    /\ TileGrid.__len__ self = width
    /\ pixel_ranges <$> TileGrid._x self = mapper.
Proof.
  intros Hw Hh h.
  eexists _, (serpentine width height), _.
  split; [apply generate_grid_two; lia|].
  split; [apply single_tile_coord_pos; lia|].
  split; [by rewrite length_fmap, length_serpentine|].
  split; [|split; [reflexivity|split; [apply init_two; lia|split; [reflexivity|]]]].
  - intros g tup Hg.
    apply list_lookup_fmap_Some in Hg as (col & -> & Hcol).
    pose proof (lookup_lt_Some _ _ _ Hcol) as Hlt.
    rewrite length_serpentine in Hlt.
    rewrite lookup_serpentine in Hcol by lia. inversion Hcol as [Heq].
    cbn [compose two_tile_view pixel_ranges].
    set (col' := column height (Z.of_nat g)).
    assert (Hlen : length col' = h) by apply length_column.
    split; [rewrite length_app, length_fmap; lia|].
    split; [rewrite lookup_serpentine, take_app_length' by lia; done|].
    split; [rewrite take_app_length' by lia; subst col';
            apply column_direction; lia|].
    split.
    { intros y Hy. rewrite lookup_app_l by lia. subst col'.
      rewrite lookup_column by lia. by rewrite physical_index_at by lia. }
    intros y Hy.
    destruct (lookup_lt_is_Some_2 col' y ltac:(lia)) as [a Ha].
    exists a. split; [by apply lookup_app_l_Some|].
    rewrite lookup_app_r by lia.
    replace (h + y - length col')%nat with y by lia.
    by rewrite list_lookup_fmap, Ha.
  - cbn [TileGrid._x]. by rewrite <- list_fmap_compose.
Qed.

Lemma generate_grid_two_tiles_shape_witness :
  exists mapper,
    generate_grid 4 2 2 = Ok mapper /\ length mapper = 4%nat
    /\ forall tup,
         mapper !! 1%nat = Some tup ->
         take (Z.to_nat 2) tup = reverse (seqZ (Z.of_nat 1 * 2) 2).
Proof.
  destruct (generate_grid_two_tiles_shape 4 2 ltac:(lia) ltac:(lia))
    as (mapper & single_tile & self & Hrun & _ & Hlen & Htup & _).
  exists mapper. split; [exact Hrun|]. split; [exact Hlen|].
  intros tup Hlook. exact (proj1 (proj2 (proj2 (Htup 1%nat tup Hlook)))).
Defined.

(** C6: with at most one tile the mapper is not called: the grid has no
    sub-map and its length is 0, whatever the width and height, so no tile
    can be addressed; 8 by 8 with one tile is such a grid. *)
Theorem tilegrid_single_tile_empty (width height tile_num : Z) :
  tile_num <= 1 ->
  exists self,
    TileGrid.__init__ width height tile_num = Ok self
    /\ TileGrid._x self = []
    /\ TileGrid.__len__ self = 0
    /\ (forall i, TileGrid.__getitem__ self (IdxInt i) = Raise IndexError).
Proof.
  intros Ht. eexists. split; [by apply init_single|].
  split; [reflexivity|]. split; [reflexivity|].
  intros i. unfold TileGrid.__getitem__, TileGrid.__len__. cbn [TileGrid.n].
  rewrite Z.add_0_r.
  replace (if i <? 0 then i else i) with i by (by destruct (i <? 0)).
  destruct (Z.geb_spec i 0) as [_|?]; [reflexivity|].
  destruct (Z.ltb_spec i 0) as [_|?]; [reflexivity|lia].
Qed.

Lemma tilegrid_single_tile_empty_witness :
  exists self,
    TileGrid.__init__ 8 8 1 = Ok self /\ TileGrid.__len__ self = 0.
Proof.
  destruct (tilegrid_single_tile_empty 8 8 1 ltac:(lia))
    as (self & Hinit & _ & Hlen & _).
  exists self. split; [exact Hinit|exact Hlen].
Defined.

(** ** Configurations that are not positive *)

Lemma generate_grid_not_positive width height tile_num :
  width <= 0 \/ height <= 0 \/ tile_num <= 0 ->
  generate_grid width height tile_num = Ok [].
Proof.
  intros Hcfg.
  destruct (Z_le_gt_dec width 0) as [?|Hw];
    [apply generate_grid_nonpos; lia|].
  destruct (Z_le_gt_dec height 0) as [?|Hh];
    [apply generate_grid_nonpos; lia|].
  rewrite generate_grid_multi by lia.
  by rewrite multi_grid_no_pass by lia.
Qed.

(** C7, as the code has it: nothing checks the configuration.  With a width,
    a height or a number of tiles that is not positive the mapper returns an
    empty grid and the constructor returns a grid without sub-maps, of
    length 0; neither raises. *)
Theorem nonpositive_config_builds_empty (width height tile_num : Z) :
  width <= 0 \/ height <= 0 \/ tile_num <= 0 ->
  generate_grid width height tile_num = Ok []
  /\ exists self,
       TileGrid.__init__ width height tile_num = Ok self
       /\ TileGrid._x self = []
       /\ TileGrid.__len__ self = 0.
Proof.
  intros Hcfg. split; [by apply generate_grid_not_positive|].
  destruct (Z_le_gt_dec tile_num 1) as [Hle|Hgt].
  - eexists. split; [by apply init_single|]. by split.
  - eexists. split.
    + apply init_multi; [lia|]. by apply generate_grid_not_positive.
    + by split.
Qed.

Lemma nonpositive_config_builds_empty_witness :
  generate_grid (-2) (-3) 2 = Ok []
  /\ exists self,
       TileGrid.__init__ (-2) (-3) 2 = Ok self /\ TileGrid.__len__ self = 0.
Proof.
  destruct (nonpositive_config_builds_empty (-2) (-3) 2 ltac:(lia))
    as (Hrun & self & Hinit & _ & Hlen).
  split; [exact Hrun|]. exists self. split; [exact Hinit|exact Hlen].
Defined.

(** C7, as the spec has it, fails: the constructor returns a grid for a
    configuration of zeros, for a width of 0, for a height of 0 and for a
    negative number of tiles, and raises nothing. *)
Lemma nonpositive_config_is_accepted :
  TileGrid.__init__ 0 0 0
  = Ok {| TileGrid._x := []; TileGrid.height := 0; TileGrid.width := 0;
          TileGrid.tile_num := 0; TileGrid.n := 0 |}
  /\ TileGrid.__init__ 0 8 2
     = Ok {| TileGrid._x := []; TileGrid.height := 8; TileGrid.width := 0;
             TileGrid.tile_num := 2; TileGrid.n := 0 |}
  /\ TileGrid.__init__ 8 0 2
     = Ok {| TileGrid._x := []; TileGrid.height := 0; TileGrid.width := 8;
             TileGrid.tile_num := 2; TileGrid.n := 0 |}
  /\ TileGrid.__init__ 8 8 (-1)
     = Ok {| TileGrid._x := []; TileGrid.height := 8; TileGrid.width := 8;
             TileGrid.tile_num := -1; TileGrid.n := 0 |}
  /\ (forall e, TileGrid.__init__ 0 0 0 <> Raise e).
Proof.
  repeat split. intros e. discriminate.
Qed.

(** ** Indexing *)

(** C8: on a grid whose [n] is the number of its sub-maps, an index in
    [0, n) returns the sub-map at that place; an index in [-n, 0) returns
    what the index plus [n] returns, so that -1 is the last sub-map; every
    other integer, -(n + 1) among them, raises [IndexError]; a slice raises
    [NotImplementedError]. *)
Theorem getitem_contract (self : TileGrid.t) :
  TileGrid.n self = len (TileGrid._x self) ->
  let n := TileGrid.__len__ self in
  (forall i, 0 <= i < n ->
     exists m, TileGrid._x self !! Z.to_nat i = Some m
               /\ TileGrid.__getitem__ self (IdxInt i) = Ok m)
  /\ (forall i, - n <= i < 0 ->
        exists m, TileGrid._x self !! Z.to_nat (i + n) = Some m
                  /\ TileGrid.__getitem__ self (IdxInt i) = Ok m
                  /\ TileGrid.__getitem__ self (IdxInt (i + n)) = Ok m)
  /\ TileGrid.__getitem__ self (IdxInt (-1))
     = TileGrid.__getitem__ self (IdxInt (n - 1))
  /\ (forall i, i < - n \/ n <= i ->
        TileGrid.__getitem__ self (IdxInt i) = Raise IndexError)
  /\ TileGrid.__getitem__ self (IdxInt (- (n + 1))) = Raise IndexError
  /\ (forall start stop step,
        TileGrid.__getitem__ self (IdxSlice start stop step)
        = Raise NotImplementedError).
Proof.
  intros Hn n. subst n. unfold TileGrid.__len__.
  assert (Hlen : 0 <= TileGrid.n self) by (rewrite Hn; unfold len; lia).
  assert (Hin : forall i, 0 <= i < TileGrid.n self ->
            exists m, TileGrid._x self !! Z.to_nat i = Some m
                      /\ TileGrid.__getitem__ self (IdxInt i) = Ok m).
  { intros i Hi. unfold TileGrid.__getitem__, TileGrid.__len__.
    destruct (Z.ltb_spec i 0) as [?|_]; [lia|].
    destruct (Z.geb_spec i (TileGrid.n self)) as [?|_]; [lia|].
    destruct (Z.ltb_spec i 0) as [?|_]; [lia|]. cbn [orb].
    apply getitem_in_range. lia. }
  assert (Hneg : forall i, - TileGrid.n self <= i < 0 ->
            TileGrid.__getitem__ self (IdxInt i)
            = TileGrid.__getitem__ self (IdxInt (i + TileGrid.n self))).
  { intros i Hi. unfold TileGrid.__getitem__, TileGrid.__len__.
    assert (E1 : (i <? 0) = true) by (apply Z.ltb_lt; lia).
    assert (E2 : (i + TileGrid.n self <? 0) = false) by (apply Z.ltb_ge; lia).
    rewrite E1. cbv iota. rewrite !E2. reflexivity. }
  assert (Hout : forall i, i < - TileGrid.n self \/ TileGrid.n self <= i ->
            TileGrid.__getitem__ self (IdxInt i) = Raise IndexError).
  { intros i Hi. unfold TileGrid.__getitem__, TileGrid.__len__.
    destruct (Z.ltb_spec i 0) as [Hi0|Hi0].
    - destruct (Z.ltb_spec (i + TileGrid.n self) 0) as [_|?]; [|lia].
      by rewrite orb_true_r.
    - destruct (Z.geb_spec i (TileGrid.n self)) as [_|?]; [reflexivity|lia]. }
  split; [exact Hin|]. split; [|split; [|split; [exact Hout|split]]].
  - intros i Hi. destruct (Hin (i + TileGrid.n self) ltac:(lia)) as (m & Hm & Hget).
    exists m. split; [done|]. split; [|done]. by rewrite Hneg.
  - destruct (Z.eq_dec (TileGrid.n self) 0) as [->|Hpos]; [reflexivity|].
    rewrite Hneg by lia. do 2 f_equal. lia.
  - apply Hout. lia.
  - reflexivity.
Qed.

Lemma getitem_contract_witness :
  TileGrid.__getitem__ grid_4_2_2 (IdxInt (-1))
  = TileGrid.__getitem__ grid_4_2_2 (IdxInt (4 - 1))
  /\ TileGrid.__getitem__ grid_4_2_2 (IdxInt (- (4 + 1))) = Raise IndexError.
Proof.
  destruct (getitem_contract grid_4_2_2 eq_refl)
    as (_ & _ & Hlast & _ & Hbelow & _).
  split; [exact Hlast|exact Hbelow].
Defined.

(** ** Methods that reach the strip *)

Section strip.

Context {S C : Type} `{PixelStrip S}.

(** [PixelMap.__setitem__] of [helper.py], whatever it does to the strip. *)
Variable PixelMap_setitem : PixelMap -> Z -> C -> S -> result S.

(** C9: an assignment through an integer, or through any other index that
    is neither a tuple nor a slice, raises [ValueError], on every grid and
    whatever the strip holds.  An assignment through a tuple whose first
    component selects a sub-map writes the value through that sub-map at the
    second component; when that write succeeds, [show()] runs afterwards if
    the strip's [auto_write] is set, and does not run if it is not. *)
Theorem setitem_contract (self : TileGrid.t) (val : C) (s : S) :
  (forall i,
     TileGrid.__setitem__ PixelMap_setitem self (IdxInt i) val s
     = Raise ValueError)
  /\ (forall name,
        TileGrid.__setitem__ PixelMap_setitem self (IdxStr name) val s
        = Raise ValueError)
  /\ (forall i0 i1 tile s',
        getitem (TileGrid._x self) i0 = Ok tile ->
        PixelMap_setitem tile i1 val s = Ok s' ->
        TileGrid.__setitem__ PixelMap_setitem self (IdxTuple i0 i1) val s
        = Ok (if strip_auto_write s' then TileGrid.show self s' else s')
        /\ (strip_auto_write s' = true ->
              TileGrid.__setitem__ PixelMap_setitem self (IdxTuple i0 i1) val s
              = Ok (strip_show s'))
        /\ (strip_auto_write s' = false ->
              TileGrid.__setitem__ PixelMap_setitem self (IdxTuple i0 i1) val s
              = Ok s')).
Proof.
  split; [reflexivity|]. split; [reflexivity|].
  intros i0 i1 tile s' Htile Hwrite.
  assert (Hset :
    TileGrid.__setitem__ PixelMap_setitem self (IdxTuple i0 i1) val s
    = Ok (if strip_auto_write s' then TileGrid.show self s' else s')).
  { unfold TileGrid.__setitem__. rewrite Htile. cbn [bind].
    rewrite Hwrite. reflexivity. }
  split; [exact Hset|].
  split; intros Hauto; rewrite Hset, Hauto; reflexivity.
Qed.

(** C10: setting the brightness stores [min(max(b, 0.0), 1.0)] on the strip,
    which is 0.0 for a value below 0.0, 1.0 for a value above 1.0 and the
    value itself otherwise: -0.5 stores 0.0, 1.5 stores 1.0 and 0.5 stores
    0.5.  Reading the brightness returns the strip's own value, so on a strip
    that keeps what it is given the stored value is read back. *)
Theorem brightness_clamp (self : TileGrid.t) (b : float) (s : S) :
  TileGrid.set_brightness self b s
  = strip_set_brightness (Py.min (Py.max b 0%float) 1%float) s
  /\ Py.min (Py.max b 0%float) 1%float
     = (if PrimFloat.ltb b 0%float then 0%float
        else if PrimFloat.ltb 1%float b then 1%float else b)
  /\ TileGrid.set_brightness self (-0.5)%float s = strip_set_brightness 0%float s
  /\ TileGrid.set_brightness self 1.5%float s = strip_set_brightness 1%float s
  /\ TileGrid.set_brightness self 0.5%float s = strip_set_brightness 0.5%float s
  /\ TileGrid.brightness self s = strip_brightness s
  /\ (forall s0 : BufferStrip,
        TileGrid.brightness self (TileGrid.set_brightness self b s0)
        = Py.min (Py.max b 0%float) 1%float).
Proof.
  split; [reflexivity|]. split; [|repeat split].
  unfold Py.max, Py.min. destruct (PrimFloat.ltb b 0%float); reflexivity.
Qed.

End strip.

Lemma setitem_contract_witness :
  TileGrid.__setitem__ BufferMap_setitem grid_4_2_2 (IdxInt 1) 255 (blank true)
  = Raise ValueError
  /\ TileGrid.__setitem__ BufferMap_setitem grid_4_2_2 (IdxTuple 1 2) 255
       (blank true)
     = Ok {| buf := <[11%nat := 255]> (replicate 16 0);
             buf_brightness := 1%float; buf_auto_write := true;
             shown := [<[11%nat := 255]> (replicate 16 0);
                       <[11%nat := 255]> (replicate 16 0)] |}
  /\ TileGrid.__setitem__ BufferMap_setitem grid_4_2_2 (IdxTuple 1 2) 255
       (blank false)
     = Ok {| buf := <[11%nat := 255]> (replicate 16 0);
             buf_brightness := 1%float; buf_auto_write := false;
             shown := [] |}.
Proof.
  split; [|split].
  - exact (proj1 (setitem_contract BufferMap_setitem grid_4_2_2 255
                    (blank true)) 1).
  - exact (proj1 (proj2
      (proj2 (proj2
         (setitem_contract BufferMap_setitem grid_4_2_2 255 (blank true)))
         1 2 _ _ eq_refl eq_refl)) eq_refl).
  - exact (proj2 (proj2
      (proj2 (proj2
         (setitem_contract BufferMap_setitem grid_4_2_2 255 (blank false)))
         1 2 _ _ eq_refl eq_refl)) eq_refl).
Defined.

(** * Further properties of the module *)

(** ** The mapper on every input *)

Lemma length_bind_const {A B} (f : A -> list B) (c : nat) (l : list A) :
  (forall a, length (f a) = c) -> length (l ≫= f) = (length l * c)%nat.
Proof.
  intros Hf. induction l as [|a l IH]; [done|].
  rewrite bind_cons, length_app, Hf, IH. cbn [length]. lia.
Qed.

Lemma lookup_bind_const {A B} (f : A -> list B) (c : nat) (l : list A) (j : nat) :
  (0 < c)%nat -> (forall a, length (f a) = c) ->
  (l ≫= f) !! j = l !! (j / c)%nat ≫= (fun a => f a !! (j mod c)%nat).
Proof.
  intros Hc Hf. revert j. induction l as [|a l IH]; intros j; [done|].
  rewrite bind_cons.
  destruct (Nat.lt_ge_cases j c) as [Hlt|Hge].
  - rewrite lookup_app_l by (by rewrite Hf).
    by rewrite Nat.div_small, Nat.mod_small.
  - rewrite lookup_app_r by (rewrite Hf; lia). rewrite Hf, IH.
    assert (Hd : (j / c = S ((j - c) / c))%nat).
    { replace j with ((j - c) + 1 * c)%nat at 1 by lia.
      rewrite Nat.div_add by lia. lia. }
    assert (Hm : (j mod c = (j - c) mod c)%nat).
    { replace j with ((j - c) + 1 * c)%nat at 1 by lia.
      by rewrite Nat.Div0.mod_add. }
    by rewrite Hd, Hm.
Qed.

Lemma length_multi_grid w h t :
  length (multi_grid w h t) = (Z.to_nat w * Z.to_nat (t - 1))%nat.
Proof.
  unfold multi_grid.
  rewrite (length_bind_const _ (Z.to_nat (t - 1))), length_seqZ; [done|].
  intros x. by rewrite length_fmap, length_seq.
Qed.

Lemma lookup_multi_grid w h t (j : nat) :
  (j < Z.to_nat w * Z.to_nat (t - 1))%nat ->
  multi_grid w h t !! j
  = Some (replicated w h t (Z.of_nat (j / Z.to_nat (t - 1)))
            (j mod Z.to_nat (t - 1) + 1)).
Proof.
  intros Hj. set (c := Z.to_nat (t - 1)) in *.
  assert (Hc : (0 < c)%nat) by (destruct c; lia).
  assert (Hx : (j / c < Z.to_nat w)%nat)
    by (apply Nat.Div0.div_lt_upper_bound; lia).
  pose proof (Nat.mod_upper_bound j c ltac:(lia)) as Hk.
  unfold multi_grid. fold c.
  rewrite (lookup_bind_const _ c) by (done || intros x; by rewrite length_fmap, length_seq).
  rewrite lookup_seqZ_lt by lia. cbn [mbind option_bind].
  rewrite list_lookup_fmap, lookup_seq_lt by done. cbn.
  do 2 f_equal. lia.
Qed.

Lemma getitem_at (self : TileGrid.t) (i : Z) (m : PixelMap) :
  TileGrid.n self = len (TileGrid._x self) ->
  0 <= i -> TileGrid._x self !! Z.to_nat i = Some m ->
  TileGrid.__getitem__ self (IdxInt i) = Ok m.
Proof.
  intros Hn Hi Hm. pose proof (lookup_lt_Some _ _ _ Hm) as Hlt.
  unfold TileGrid.__getitem__, TileGrid.__len__.
  destruct (Z.ltb_spec i 0) as [?|_]; [lia|].
  destruct (Z.geb_spec i (TileGrid.n self)) as [?|_];
    [rewrite Hn in *; unfold len in *; lia|].
  destruct (Z.ltb_spec i 0) as [?|_]; [lia|]. cbn [orb].
  destruct (getitem_in_range (TileGrid._x self) i) as (m' & Hm' & ->);
    [unfold len; lia|]. congruence.
Qed.

Lemma generate_grid_returns width height tile_num :
  exists grid, generate_grid width height tile_num = Ok grid.
Proof.
  destruct (Z_le_gt_dec width 0) as [?|Hw];
    [exists []; apply generate_grid_nonpos; lia|].
  destruct (Z_le_gt_dec height 0) as [?|Hh];
    [exists []; apply generate_grid_nonpos; lia|].
  destruct (Z.eq_dec tile_num 1) as [->|Ht1].
  - eexists. apply generate_grid_single; lia.
  - eexists. apply generate_grid_multi; lia.
Qed.

(** X1: the mapper returns a grid for every triple of integers and never
    raises; the grid is empty exactly when the width, the height or the
    number of tiles is not positive. *)
Theorem generate_grid_total (width height tile_num : Z) :
  exists grid,
    generate_grid width height tile_num = Ok grid
    /\ (grid = [] <-> width <= 0 \/ height <= 0 \/ tile_num <= 0).
Proof.
  destruct (Z_le_gt_dec width 0) as [?|Hw];
    [exists []; split; [apply generate_grid_not_positive; lia|split; [lia|done]]|].
  destruct (Z_le_gt_dec height 0) as [?|Hh];
    [exists []; split; [apply generate_grid_not_positive; lia|split; [lia|done]]|].
  destruct (Z_le_gt_dec tile_num 0) as [?|Ht];
    [exists []; split; [apply generate_grid_not_positive; lia|split; [lia|done]]|].
  destruct (Z.eq_dec tile_num 1) as [->|Ht1].
  - exists (serpentine width height).
    split; [apply generate_grid_single; lia|].
    split; [|lia]. intros Hnil.
    pose proof (length_serpentine width height) as Hlen.
    rewrite Hnil in Hlen. cbn in Hlen. lia.
  - exists (multi_grid width height tile_num).
    split; [apply generate_grid_multi; lia|].
    split; [|lia]. intros Hnil.
    pose proof (length_multi_grid width height tile_num) as Hlen.
    rewrite Hnil in Hlen. cbn [length] in Hlen. nia.
Qed.

(** X2: the constructor returns a grid for every triple of integers and
    never raises; the grid keeps the three arguments, its [n] is the number
    of its sub-maps, and every sub-map was built with [individual_pixels]
    set. *)
Theorem init_total (width height tile_num : Z) :
  exists self,
    TileGrid.__init__ width height tile_num = Ok self
    /\ TileGrid.width self = width
    /\ TileGrid.height self = height
    /\ TileGrid.tile_num self = tile_num
    /\ TileGrid.n self = len (TileGrid._x self)
    /\ TileGrid.__len__ self = Z.of_nat (length (TileGrid._x self))
    /\ (forall m, m ∈ TileGrid._x self -> individual_pixels m = true).
Proof.
  destruct (Z_le_gt_dec tile_num 1) as [Hle|Hgt].
  - eexists. split; [by apply init_single|]. repeat split.
    intros m Hm. cbn in Hm. by apply elem_of_nil in Hm.
  - destruct (generate_grid_returns width height tile_num) as (grid & Hgrid).
    eexists. split; [apply init_multi; [lia|exact Hgrid]|].
    split; [done|]. split; [done|]. split; [done|].
    split; [cbn [TileGrid.n TileGrid._x]; unfold len; by rewrite length_fmap|].
    split; [cbn [TileGrid.__len__ TileGrid.n TileGrid._x]; by rewrite length_fmap|].
    intros m Hm. cbn [TileGrid._x] in Hm.
    apply list_elem_of_fmap in Hm as (tup & -> & _). reflexivity.
Qed.

(** X3: with more than one tile, a tile of at least one group of at least
    one pixel gives [width * (tile_num - 1)] tuples and as many sub-maps:
    tuple [j] is group [j // (tile_num - 1)] of the single tile followed by
    [j % (tile_num - 1) + 1] replicated blocks, so its length is
    [(j % (tile_num - 1) + 2) * height], and [grid[j]] is the sub-map built
    from it. *)
Theorem grid_layout (width height tile_num : Z) :
  1 <= width -> 1 <= height -> 1 < tile_num ->
  let passes := Z.to_nat (tile_num - 1) in
  exists grid self,
    generate_grid width height tile_num = Ok grid
    /\ TileGrid.__init__ width height tile_num = Ok self
    /\ length grid = (Z.to_nat width * passes)%nat
    /\ TileGrid.__len__ self = width * (tile_num - 1)
    /\ (forall j : nat,
          (j < Z.to_nat width * passes)%nat ->
          exists m,
            grid !! j = Some m
            /\ m = replicated width height tile_num
                     (Z.of_nat (j / passes)) (j mod passes + 1)
            /\ length m = ((j mod passes + 2) * Z.to_nat height)%nat
            /\ TileGrid.__getitem__ self (IdxInt (Z.of_nat j))
               = Ok {| pixel_ranges := m; individual_pixels := true |}).
Proof.
  intros Hw Hh Ht passes.
  assert (Hgrid : generate_grid width height tile_num
                  = Ok (multi_grid width height tile_num))
    by (apply generate_grid_multi; lia).
  eexists _, _. split; [exact Hgrid|].
  split; [apply init_multi; [lia|exact Hgrid]|].
  split; [apply length_multi_grid|].
  split; [cbn [TileGrid.__len__ TileGrid.n];
          rewrite length_multi_grid; lia|].
  intros j Hj. eexists. split; [by apply lookup_multi_grid|].
  split; [reflexivity|].
  split; [rewrite length_replicated; subst passes; f_equal; lia|].
  apply getitem_at.
  - cbn [TileGrid.n TileGrid._x]. unfold len. by rewrite length_fmap.
  - lia.
  - cbn [TileGrid._x]. rewrite Nat2Z.id, list_lookup_fmap.
    by rewrite lookup_multi_grid.
Qed.

Lemma grid_layout_witness :
  exists grid,
    generate_grid 1 2 3 = Ok grid /\ length grid = (Z.to_nat 1 * Z.to_nat (3 - 1))%nat.
Proof.
  destruct (grid_layout 1 2 3 ltac:(lia) ltac:(lia) ltac:(lia))
    as (grid & self & Hrun & _ & Hlen & _).
  exists grid. split; [exact Hrun|exact Hlen].
Defined.

(** ** Two tiles cover the strip *)

Lemma join_fmap_app {A B} (f g : A -> list B) (l : list A) :
  mjoin ((fun a => f a ++ g a) <$> l) ≡ₚ mjoin (f <$> l) ++ mjoin (g <$> l).
Proof.
  induction l as [|a l IH]; [done|].
  cbn [fmap list_fmap mjoin list_join]. rewrite IH.
  rewrite <- !(assoc_L (++)). f_equiv.
  rewrite !(assoc_L (++)). f_equiv; [apply (comm (++))|done].
Qed.

Lemma join_fmap_fmap {A B C} (f : B -> C) (g : A -> list B) (l : list A) :
  mjoin ((fun a => f <$> g a) <$> l) = f <$> mjoin (g <$> l).
Proof.
  induction l as [|a l IH]; [done|].
  cbn [fmap list_fmap mjoin list_join]. rewrite fmap_app. by f_equal.
Qed.

(** X4: for two tiles of at least one group of at least one pixel, the
    tuples of the grid, one after the other, are a permutation of
    [0, 2 * width * height): every pixel of the two chained tiles belongs to
    exactly one place of exactly one sub-map. *)
Theorem two_tiles_cover_strip (width height : Z) :
  1 <= width -> 1 <= height ->
  exists grid self,
    generate_grid width height 2 = Ok grid
    /\ TileGrid.__init__ width height 2 = Ok self
    /\ pixel_ranges <$> TileGrid._x self = grid
    /\ mjoin grid ≡ₚ seqZ 0 (2 * (width * height))
    /\ NoDup (mjoin grid)
    /\ (forall v, v ∈ mjoin grid <-> 0 <= v < 2 * (width * height)).
Proof.
  intros Hw Hh.
  assert (Hwh : 0 <= width * height) by (apply Z.mul_nonneg_nonneg; lia).
  assert (Hgrid : generate_grid width height 2
                  = Ok (multi_grid width height 2))
    by (apply generate_grid_multi; lia).
  eexists _, _. split; [exact Hgrid|].
  split; [apply init_multi; [lia|exact Hgrid]|].
  split; [cbn [TileGrid._x]; rewrite <- list_fmap_compose; apply list_fmap_id|].
  assert (Hperm : mjoin (multi_grid width height 2)
                  ≡ₚ seqZ 0 (2 * (width * height))).
  { rewrite multi_grid_two, join_fmap_app, join_fmap_fmap.
    fold (serpentine width height).
    assert (Hs : mjoin (serpentine width height) ≡ₚ seqZ 0 (width * height)).
    { rewrite <- (Z2Nat.id width) by lia. apply serpentine_Permutation. lia. }
    rewrite !Hs.
    replace (2 * (width * height)) with (width * height + width * height)
      by lia.
    rewrite (seqZ_app 0) by lia. f_equiv.
    assert (Hshift : (fun num => num + width * height) <$> seqZ 0 (width * height)
                     = seqZ (0 + width * height) (width * height)).
    { transitivity (Z.add (width * height) <$> seqZ 0 (width * height)).
      - apply list_fmap_ext. intros _ num _. lia.
      - rewrite fmap_add_seqZ. f_equal. lia. }
    by rewrite Hshift. }
  split; [exact Hperm|]. split.
  - rewrite Hperm. apply NoDup_seqZ.
  - intros v. rewrite Hperm, elem_of_seqZ. lia.
Qed.

Lemma two_tiles_cover_strip_witness :
  exists grid,
    generate_grid 4 2 2 = Ok grid /\ mjoin grid ≡ₚ seqZ 0 (2 * (4 * 2)).
Proof.
  destruct (two_tiles_cover_strip 4 2 ltac:(lia) ltac:(lia))
    as (grid & self & Hrun & _ & _ & Hperm & _).
  exists grid. split; [exact Hrun|exact Hperm].
Defined.

(** ** The shape of the serpentine *)

Lemma lookup_entry w h x y :
  0 <= x < w -> 0 <= y < h ->
  serpentine w h !! Z.to_nat x ≫= (fun group => group !! Z.to_nat y)
  = Some (if Z.even x then x * h + y else (x + 1) * h - 1 - y).
Proof.
  intros Hx Hy. rewrite lookup_serpentine by lia. cbn [mbind option_bind].
  rewrite lookup_column, !Z2Nat.id by lia. by rewrite physical_index_at.
Qed.

(** X5: in the single-tile map of a tile of at least one group of at least
    one pixel, group [x] holds the [height] consecutive indices that start at
    [x * height], in increasing order when [x] is even and in decreasing
    order when [x] is odd. *)
Theorem groups_alternate (width height : Z) :
  1 <= width -> 1 <= height ->
  exists single_tile,
    single_tile_coord width height = Ok single_tile
    /\ forall x, 0 <= x < width ->
         single_tile !! Z.to_nat x
         = Some (if Z.even x then seqZ (x * height) height
                 else reverse (seqZ (x * height) height)).
Proof.
  intros Hw Hh. exists (serpentine width height).
  split; [apply single_tile_coord_pos; lia|].
  intros x Hx. rewrite lookup_serpentine, Z2Nat.id by lia.
  by rewrite column_direction by lia.
Qed.

Lemma groups_alternate_witness :
  exists single_tile,
    single_tile_coord 2 3 = Ok single_tile
    /\ single_tile !! Z.to_nat 1 = Some (reverse (seqZ (1 * 3) 3)).
Proof.
  destruct (groups_alternate 2 3 ltac:(lia) ltac:(lia))
    as (single_tile & Hrun & Hgroup).
  exists single_tile. split; [exact Hrun|exact (Hgroup 1 ltac:(lia))].
Defined.

(** X6: the single-tile map can be read backwards.  Physical index [p] of a
    tile sits in group [p // height], at place [p % height] when the group is
    even and at place [height - 1 - p % height] when it is odd, and at no
    other coordinate of the tile. *)
Theorem coordinates_of_index (width height : Z) :
  1 <= width -> 1 <= height ->
  exists single_tile,
    single_tile_coord width height = Ok single_tile
    /\ forall p, 0 <= p < width * height ->
         let x := p / height in
         let y := if Z.even x then p mod height
                  else height - 1 - p mod height in
         0 <= x < width /\ 0 <= y < height
         /\ single_tile !! Z.to_nat x ≫= (fun group => group !! Z.to_nat y)
            = Some p
         /\ forall x' y',
              0 <= x' < width -> 0 <= y' < height ->
              single_tile !! Z.to_nat x'
                ≫= (fun group => group !! Z.to_nat y') = Some p ->
              x' = x /\ y' = y.
Proof.
  intros Hw Hh. exists (serpentine width height).
  split; [apply single_tile_coord_pos; lia|].
  intros p Hp x y.
  pose proof (Z.div_mod p height ltac:(lia)) as Hdm.
  pose proof (Z.mod_pos_bound p height ltac:(lia)) as Hmb.
  assert (Hx : 0 <= x < width).
  { subst x. split; [apply Z.div_pos; lia|].
    apply Z.div_lt_upper_bound; lia. }
  assert (Hy : 0 <= y < height) by (subst y; destruct (Z.even x); lia).
  split; [exact Hx|]. split; [exact Hy|]. split.
  - rewrite lookup_entry by done. f_equal.
    subst y. fold x in Hdm. destruct (Z.even x); lia.
  - intros x' y' Hx' Hy' Hlook. rewrite lookup_entry in Hlook by done.
    inversion Hlook as [Hp'].
    assert (Hxx : x' = x).
    { subst x.
      destruct (Z.even x').
      - apply (Z.div_unique p height x' y'); lia.
      - apply (Z.div_unique p height x' (height - 1 - y')); lia. }
    split; [exact Hxx|]. subst x'. subst y. fold x in Hdm.
    destruct (Z.even x); lia.
Qed.

Lemma coordinates_of_index_witness :
  exists single_tile,
    single_tile_coord 2 3 = Ok single_tile
    /\ single_tile !! Z.to_nat (4 / 3)
         ≫= (fun group => group !! Z.to_nat (3 - 1 - 4 mod 3))
       = Some 4.
Proof.
  destruct (coordinates_of_index 2 3 ltac:(lia) ltac:(lia))
    as (single_tile & Hrun & Hback).
  exists single_tile. split; [exact Hrun|].
  exact (proj1 (proj2 (proj2 (Hback 4 ltac:(lia))))).
Defined.

(** X7: the strip turns at the end of each group.  In the single-tile map
    the place where group [x] ends (the last place of an even group, the
    first place of an odd one) holds, in group [x + 1], the next physical
    index. *)
Theorem groups_turn (width height : Z) :
  1 <= width -> 1 <= height ->
  exists single_tile,
    single_tile_coord width height = Ok single_tile
    /\ forall x, 0 <= x -> x + 1 < width ->
         let y := if Z.even x then height - 1 else 0 in
         exists a,
           single_tile !! Z.to_nat x ≫= (fun group => group !! Z.to_nat y)
           = Some a
           /\ single_tile !! Z.to_nat (x + 1)
                ≫= (fun group => group !! Z.to_nat y)
              = Some (a + 1).
Proof.
  intros Hw Hh. exists (serpentine width height).
  split; [apply single_tile_coord_pos; lia|].
  intros x Hx Hx1 y.
  assert (Hy : 0 <= y < height) by (subst y; destruct (Z.even x); lia).
  eexists. split; [apply lookup_entry; lia|].
  rewrite lookup_entry by lia. f_equal.
  replace (x + 1) with (Z.succ x) by lia. rewrite Z.even_succ, <- Z.negb_even.
  subst y. destruct (Z.even x); cbn [negb]; lia.
Qed.

Lemma groups_turn_witness :
  exists single_tile,
    single_tile_coord 2 3 = Ok single_tile
    /\ exists a,
         single_tile !! Z.to_nat 0 ≫= (fun group => group !! Z.to_nat (3 - 1))
         = Some a
         /\ single_tile !! Z.to_nat (0 + 1)
              ≫= (fun group => group !! Z.to_nat (3 - 1))
            = Some (a + 1).
Proof.
  destruct (groups_turn 2 3 ltac:(lia) ltac:(lia))
    as (single_tile & Hrun & Hturn).
  exists single_tile. split; [exact Hrun|].
  exact (Hturn 0 ltac:(lia) ltac:(lia)).
Defined.

(** ** Reversed axes *)

(** X8: [reverse_x_mapper] mirrors the columns: the mapper it returns reads
    the wrapped mapper at column [width - 1 - x] of the same row, so column 0
    reads column [width - 1] and back, and on a grid of width 4 the
    coordinate (0, 1) is read at (3, 1).  Wrapping a mapper twice gives the
    mapper back, and along any row the wrapped mapper takes, over the columns
    [0 .. width - 1], the same values as the mapper it wraps. *)
Theorem reverse_x_mapper_mirror {A} (width : Z) (mapper : Z -> Z -> A) :
  (forall x y, reverse_x_mapper width mapper x y = mapper (width - 1 - x) y)
  /\ (forall y, reverse_x_mapper width mapper 0 y = mapper (width - 1) y)
  /\ (forall y, reverse_x_mapper width mapper (width - 1) y = mapper 0 y)
  /\ reverse_x_mapper 4 (fun x y => (x, y)) 0 1 = (3, 1)
  /\ (forall x y,
        reverse_x_mapper width (reverse_x_mapper width mapper) x y = mapper x y)
  /\ (forall y v,
        (exists x, 0 <= x < width /\ reverse_x_mapper width mapper x y = v)
        <-> (exists x, 0 <= x < width /\ mapper x y = v))
  /\ (forall (Q : A -> Prop),
        (forall x y, 0 <= x < width -> Q (mapper x y)) ->
        forall x y, 0 <= x < width -> Q (reverse_x_mapper width mapper x y)).
Proof.
  unfold reverse_x_mapper.
  split; [reflexivity|]. split; [intros y; f_equal; lia|].
  split; [intros y; f_equal; lia|]. split; [reflexivity|].
  split; [|split].
  - intros x y. f_equal. lia.
  - intros y v. split; intros (x & Hx & <-); exists (width - 1 - x).
    + split; [lia|reflexivity].
    + split; [lia|]. f_equal. lia.
  - intros Q HQ x y Hx. apply HQ. lia.
Qed.

(** X9: [reverse_y_mapper] mirrors the rows: the mapper it returns reads the
    wrapped mapper at row [height - 1 - y] of the same column, so on a grid
    of height 3 the coordinate (1, 0) is read at (1, 2).  Wrapping twice
    gives the mapper back, along any column the wrapped mapper takes over the
    rows [0 .. height - 1] the same values as the mapper it wraps, and the
    two reversals together, in either order, read the opposite corner. *)
Theorem reverse_y_mapper_mirror {A} (height : Z) (mapper : Z -> Z -> A) :
  (forall x y, reverse_y_mapper height mapper x y = mapper x (height - 1 - y))
  /\ (forall x, reverse_y_mapper height mapper x 0 = mapper x (height - 1))
  /\ (forall x, reverse_y_mapper height mapper x (height - 1) = mapper x 0)
  /\ reverse_y_mapper 3 (fun x y => (x, y)) 1 0 = (1, 2)
  /\ (forall x y,
        reverse_y_mapper height (reverse_y_mapper height mapper) x y
        = mapper x y)
  /\ (forall x v,
        (exists y, 0 <= y < height /\ reverse_y_mapper height mapper x y = v)
        <-> (exists y, 0 <= y < height /\ mapper x y = v))
  /\ (forall width x y,
        reverse_x_mapper width (reverse_y_mapper height mapper) x y
        = mapper (width - 1 - x) (height - 1 - y)
        /\ reverse_y_mapper height (reverse_x_mapper width mapper) x y
           = mapper (width - 1 - x) (height - 1 - y)).
Proof.
  unfold reverse_y_mapper, reverse_x_mapper.
  split; [reflexivity|]. split; [intros x; f_equal; lia|].
  split; [intros x; f_equal; lia|]. split; [reflexivity|].
  split; [|split].
  - intros x y. f_equal. lia.
  - intros x v. split; intros (y & Hy & <-); exists (height - 1 - y).
    + split; [lia|reflexivity].
    + split; [lia|]. f_equal. lia.
  - intros width x y. split; reflexivity.
Qed.

(** ** Brightness, fill and assignment *)

Section strip_more.

Context {S C : Type} `{PixelStrip S}.

Variable PixelMap_setitem : PixelMap -> Z -> C -> S -> result S.
Variable PixelMap_fill : PixelMap -> C -> S -> result S.

(** X10: the value the brightness setter hands to the strip is never below
    0.0 and never above 1.0, and setting that value again stores the same;
    plus infinity is stored as 1.0, minus infinity as 0.0, and a NaN, which
    compares with nothing, is handed on as it is. *)
Theorem brightness_stays_in_range (self : TileGrid.t) (b : float) (s : S) :
  exists v,
    TileGrid.set_brightness self b s = strip_set_brightness v s
    /\ v = Py.min (Py.max b 0%float) 1%float
    /\ PrimFloat.ltb v 0%float = false
    /\ PrimFloat.ltb 1%float v = false
    /\ TileGrid.set_brightness self v s = TileGrid.set_brightness self b s
    /\ TileGrid.set_brightness self infinity s = strip_set_brightness 1%float s
    /\ TileGrid.set_brightness self neg_infinity s
       = strip_set_brightness 0%float s
    /\ TileGrid.set_brightness self nan s = strip_set_brightness nan s.
Proof.
  exists (Py.min (Py.max b 0%float) 1%float).
  split; [reflexivity|]. split; [reflexivity|].
  unfold TileGrid.set_brightness, Py.max, Py.min.
  destruct (PrimFloat.ltb b 0%float) eqn:Hlow.
  - repeat split.
  - destruct (PrimFloat.ltb 1%float b) eqn:Hhigh.
    + repeat split.
    + rewrite Hlow, Hhigh. repeat split.
Qed.

(** X11: a grid without sub-maps, which is what one tile or a width or
    height that is not positive builds, is not filled: [fill] returns at once
    and leaves the strip as it was, without calling any sub-map. *)
Theorem fill_without_submaps (width height tile_num : Z) (color : C) (s : S) :
  tile_num <= 1 \/ width <= 0 \/ height <= 0 ->
  exists self,
    TileGrid.__init__ width height tile_num = Ok self
    /\ TileGrid.fill PixelMap_fill self color s = Ok s.
Proof.
  intros Hcfg. destruct (Z_le_gt_dec tile_num 1) as [Hle|Hgt].
  - eexists. split; [by apply init_single|]. reflexivity.
  - eexists. split.
    + apply init_multi; [lia|]. apply generate_grid_not_positive. lia.
    + reflexivity.
Qed.


(** X13: in an assignment through a tuple the first component selects the
    sub-map the way a list is indexed.  Below [-len] or from [len] on it
    raises [IndexError] and no sub-map is written; in [-len, 0) it selects
    what the component plus [len] selects; and when the selected sub-map
    raises, the assignment raises the same and [show()] does not run. *)
Theorem setitem_selects_submap (self : TileGrid.t) (i1 : Z) (val : C) (s : S) :
  let n := len (TileGrid._x self) in
  (forall i0, i0 < - n \/ n <= i0 ->
     TileGrid.__setitem__ PixelMap_setitem self (IdxTuple i0 i1) val s
     = Raise IndexError)
  /\ (forall i0, - n <= i0 < 0 ->
        TileGrid.__setitem__ PixelMap_setitem self (IdxTuple i0 i1) val s
        = TileGrid.__setitem__ PixelMap_setitem self (IdxTuple (i0 + n) i1)
            val s)
  /\ (forall i0 tile e,
        getitem (TileGrid._x self) i0 = Ok tile ->
        PixelMap_setitem tile i1 val s = Raise e ->
        TileGrid.__setitem__ PixelMap_setitem self (IdxTuple i0 i1) val s
        = Raise e)
  /\ (forall start stop step,
        TileGrid.__setitem__ PixelMap_setitem self
          (IdxSlice start stop step) val s
        = Raise NotImplementedError).
Proof.
  intros n. subst n. unfold TileGrid.__setitem__.
  split; [|split; [|split]].
  - intros i0 Hi0.
    assert (Hget : getitem (TileGrid._x self) i0 = Raise IndexError).
    { unfold getitem.
      destruct (Z.ltb_spec i0 0) as [Hneg|Hpos].
      - destruct (Z.ltb_spec (i0 + len (TileGrid._x self)) 0) as [_|?];
          [reflexivity|unfold len in *; lia].
      - destruct (Z.ltb_spec i0 0) as [?|_]; [lia|].
        destruct (Z.leb_spec (len (TileGrid._x self)) i0) as [_|?];
          [reflexivity|unfold len in *; lia]. }
    by rewrite Hget.
  - intros i0 Hi0.
    assert (Hget : getitem (TileGrid._x self) i0
                   = getitem (TileGrid._x self) (i0 + len (TileGrid._x self))).
    { unfold getitem.
      assert (E1 : (i0 <? 0) = true) by (apply Z.ltb_lt; lia).
      assert (E2 : (i0 + len (TileGrid._x self) <? 0) = false)
        by (apply Z.ltb_ge; lia).
      rewrite E1. cbv iota. rewrite !E2. reflexivity. }
    by rewrite Hget.
  - intros i0 tile e Htile Hwrite. rewrite Htile. cbn [bind].
    by rewrite Hwrite.
  - reflexivity.
Qed.

End strip_more.

Lemma fill_without_submaps_witness :
  exists self,
    TileGrid.__init__ 8 8 1 = Ok self
    /\ TileGrid.fill (fun _ _ _ => Raise ValueError) self 255 (blank true)
       = Ok (blank true).
Proof.
  exact (fill_without_submaps (fun _ _ _ => Raise ValueError) 8 8 1 255
           (blank true) ltac:(lia)).
Defined.


(** ** The printed form *)

Lemma list_comp_lookup {A B} (f : Z -> result B) (g : A -> result B)
    (l : list A) k :
  (forall (i : nat) a, l !! i = Some a -> f (k + Z.of_nat i) = g a) ->
  list_comp f (seqZ k (len l)) = list_comp g l.
Proof.
  revert k. induction l as [|a l IH]; intros k Hf; [done|].
  unfold len. cbn [length]. rewrite seqZ_cons by lia. cbn [list_comp].
  pose proof (Hf 0%nat a eq_refl) as H0.
  change (Z.of_nat 0) with 0 in H0. rewrite Z.add_0_r in H0.
  rewrite H0.
  replace (Z.pred (Z.of_nat (S (length l)))) with (len l)
    by (unfold len; lia).
  rewrite IH; [reflexivity|].
  intros i b Hb. rewrite <- (Hf (S i) b Hb). f_equal. lia.
Qed.

Lemma list_comp_Forall2 {A B} (g : A -> result B) (l : list A) (bs : list B) :
  Forall2 (fun a b => g a = Ok b) l bs -> list_comp g l = Ok bs.
Proof.
  induction 1 as [|a b l bs Ha _ IH]; [done|].
  cbn [list_comp]. rewrite Ha. cbn [bind]. by rewrite IH.
Qed.

Lemma list_comp_raise {A B} (g : A -> result B) (pre post : list A) a e :
  Forall (fun a' => exists b, g a' = Ok b) pre ->
  g a = Raise e -> list_comp g (pre ++ a :: post) = Raise e.
Proof.
  intros Hpre Ha. induction Hpre as [|a' pre [b Hb] _ IH].
  - cbn [app list_comp]. by rewrite Ha.
  - cbn [app list_comp]. rewrite Hb. cbn [bind]. by rewrite IH.
Qed.

Section printed.

Context {S : Type}.

Variable PixelMap_str : PixelMap -> S -> result string.

(** X14: on a grid whose [n] is the number of its sub-maps, as the
    constructor leaves it, the indexing that [__repr__] does itself never
    raises: the printed form is made of the string forms of the sub-maps,
    asked in their order.  When every sub-map gives its string, the result
    is these strings separated by a comma and a space, between square
    brackets; when a sub-map raises, after those before it gave theirs,
    [__repr__] raises the same; a grid without sub-maps prints as a pair of
    brackets and never reads the strip. *)
Theorem repr_lists_submaps (self : TileGrid.t) (s : S) :
  TileGrid.n self = len (TileGrid._x self) ->
  TileGrid.__repr__ PixelMap_str self s
  = (let* parts := list_comp (fun m => PixelMap_str m s) (TileGrid._x self) in
     Ok (String.append "[" (String.append (join ", " parts) "]")))
  /\ (forall strs,
        Forall2 (fun m str => PixelMap_str m s = Ok str) (TileGrid._x self) strs ->
        TileGrid.__repr__ PixelMap_str self s
        = Ok (String.append "[" (String.append (join ", " strs) "]")))
  /\ (forall pre m post e,
        TileGrid._x self = pre ++ m :: post ->
        Forall (fun m' => exists str, PixelMap_str m' s = Ok str) pre ->
        PixelMap_str m s = Raise e ->
        TileGrid.__repr__ PixelMap_str self s = Raise e)
  /\ (TileGrid._x self = [] ->
      TileGrid.__repr__ PixelMap_str self s = Ok "[]"%string).
Proof.
  intros Hn.
  assert (Hrepr : TileGrid.__repr__ PixelMap_str self s
    = (let* parts := list_comp (fun m => PixelMap_str m s) (TileGrid._x self) in
       Ok (String.append "[" (String.append (join ", " parts) "]")))).
  { unfold TileGrid.__repr__, range. rewrite Hn.
    rewrite (list_comp_lookup _ (fun m => PixelMap_str m s)); [reflexivity|].
    intros i m Hm. rewrite Z.add_0_l.
    rewrite (getitem_at self (Z.of_nat i) m); [reflexivity|done|lia|].
    by rewrite Nat2Z.id. }
  split; [exact Hrepr|]. split; [|split].
  - intros strs Hstrs. rewrite Hrepr.
    by rewrite (list_comp_Forall2 _ _ strs Hstrs).
  - intros pre m post e Hx Hpre Hm. rewrite Hrepr, Hx.
    by rewrite (list_comp_raise _ pre post m e Hpre Hm).
  - intros Hx. rewrite Hrepr, Hx. reflexivity.
Qed.

End printed.

Lemma repr_lists_submaps_witness :
  TileGrid.__repr__ BufferMap_str grid_4_2_2 (blank true)
  = Ok "[[0, 0, 0, 0], [0, 0, 0, 0], [0, 0, 0, 0], [0, 0, 0, 0]]"%string
  /\ TileGrid.__repr__ BufferMap_str grid_4_2_2
       {| buf := replicate 8 0; buf_brightness := 1%float;
          buf_auto_write := true; shown := [] |}
     = Raise IndexError.
Proof.
  split.
  - exact (proj1 (repr_lists_submaps BufferMap_str grid_4_2_2 (blank true)
                    eq_refl)).
  - exact (proj1 (proj2 (proj2
      (repr_lists_submaps BufferMap_str grid_4_2_2
         {| buf := replicate 8 0; buf_brightness := 1%float;
            buf_auto_write := true; shown := [] |} eq_refl)))
      [] _ _ IndexError eq_refl (Forall_nil_2 _) eq_refl).
Defined.

(** ** The pixels a grid reaches *)

Lemma elem_of_replicated w h t x k v :
  (1 <= k)%nat ->
  v ∈ replicated w h t x k <->
  v ∈ column h x \/ v - (t - 1) * (w * h) ∈ column h x.
Proof.
  intros Hk. unfold replicated, offset_block.
  rewrite elem_of_app, list_elem_of_join. split.
  - intros [Hbase|(blk & Hv & Hblk)]; [by left|right].
    apply elem_of_replicate in Hblk as [-> _].
    apply list_elem_of_fmap in Hv as (b & -> & Hb).
    by replace (b + (t - 1) * (w * h) - (t - 1) * (w * h)) with b by lia.
  - intros [Hbase|Hshift]; [by left|right].
    eexists. split; [|apply elem_of_replicate; split; [reflexivity|lia]].
    apply list_elem_of_fmap. eexists. split; [|exact Hshift]. lia.
Qed.

(** X15: with more than one tile, the physical indices that occur in the
    grid of a tile of at least one group of at least one pixel are exactly
    those of the first tile and those of the last one.  With more than two
    tiles the pixels of the tiles in between are in no sub-map. *)
Theorem grid_reaches_first_and_last_tile (width height tile_num : Z) :
  1 <= width -> 1 <= height -> 1 < tile_num ->
  exists grid,
    generate_grid width height tile_num = Ok grid
    /\ (forall v,
          (exists m, m ∈ grid /\ v ∈ m)
          <-> 0 <= v < width * height
              \/ (tile_num - 1) * (width * height) <= v
                 < tile_num * (width * height))
    /\ (forall m v,
          m ∈ grid -> v ∈ m ->
          ~ (width * height <= v < (tile_num - 1) * (width * height))).
Proof.
  intros Hw Hh Ht. exists (multi_grid width height tile_num).
  split; [apply generate_grid_multi; lia|].
  assert (Hwh : 0 <= width * height) by (apply Z.mul_nonneg_nonneg; lia).
  assert (Hoff : width * height <= (tile_num - 1) * (width * height)).
  { rewrite <- (Z.mul_1_l (width * height)) at 1.
    apply Z.mul_le_mono_nonneg_r; lia. }
  assert (Hcover : forall v,
            (exists m, m ∈ multi_grid width height tile_num /\ v ∈ m)
            <-> 0 <= v < width * height
                \/ (tile_num - 1) * (width * height) <= v
                   < tile_num * (width * height)).
  { intros v. split.
    - intros (m & (x & k & Hx & Hk & ->)%elem_of_multi_grid & Hv).
      apply elem_of_replicated in Hv; [|lia]. destruct Hv as [Hv|Hv].
      + left. apply (column_range width height x); [lia|lia|done].
      + right.
        pose proof (column_range width height x _ Hx ltac:(lia) Hv) as Hr.
        nia.
    - intros Hv.
      set (u := if Z_lt_dec v (width * height) then v
                else v - (tile_num - 1) * (width * height)).
      assert (Hu : 0 <= u < width * height)
        by (subst u; destruct (Z_lt_dec v (width * height)); lia).
      pose proof (Z.div_mod u height ltac:(lia)) as Hdm.
      pose proof (Z.mod_pos_bound u height ltac:(lia)) as Hmb.
      assert (Hx : 0 <= u / height < width).
      { split; [apply Z.div_pos; lia|]. apply Z.div_lt_upper_bound; lia. }
      assert (Hcol : u ∈ column height (u / height))
        by (apply elem_of_column; lia).
      exists (replicated width height tile_num (u / height) 1). split.
      + apply elem_of_multi_grid. exists (u / height), 1%nat.
        repeat split; lia.
      + apply elem_of_replicated; [lia|].
        subst u. destruct (Z_lt_dec v (width * height)); [by left|by right]. }
  split; [exact Hcover|].
  intros m v Hm Hv Hmid.
  destruct (proj1 (Hcover v) (ex_intro _ m (conj Hm Hv))) as [?|?]; lia.
Qed.

Lemma grid_reaches_first_and_last_tile_witness :
  exists grid,
    generate_grid 1 2 3 = Ok grid
    /\ forall m v, m ∈ grid -> v ∈ m -> ~ (1 * 2 <= v < (3 - 1) * (1 * 2)).
Proof.
  destruct (grid_reaches_first_and_last_tile 1 2 3
              ltac:(lia) ltac:(lia) ltac:(lia))
    as (grid & Hrun & _ & Hmid).
  exists grid. split; [exact Hrun|exact Hmid].
Defined.
